(** * The shared filtering/state core of the bikespace dashboard

    A shallow embedding of [bikespace_dashboard/js/components/main.js]:
    the [SharedState] store, the component registry with its refresh
    broadcast, and the [ReportFilter] class hierarchy.

    JavaScript values that the code handles dynamically ([state] arrays,
    the argument of [stateEquals]) are modelled by the type [JsValue];
    plain JavaScript objects used as maps ([components], the filter
    mapping) are modelled by [JsObject], an association list kept in
    property-creation order, with the enumeration order of the language
    ([Object_entries]) written out.  Exceptions are explicit: fallible
    code returns a [result]. *)

From Stdlib Require Import String Ascii List ZArith NArith Lia Bool Permutation.
From Stdlib Require Import DecimalString.
Import ListNotations.

Local Open Scope string_scope.
Local Open Scope list_scope.

(** ** Exceptions *)

(** The exceptions the modelled code can raise.
    [StateNotArray] is [new Error('ReportFilter state must be an Array')],
    thrown by the constructor of [ReportFilter];
    [TypeError] is the built-in error of the language (calling a method
    on a value that does not have it, [Object.keys(null)]);
    [OtherError] stands for whatever a component's own [refresh] throws. *)
Inductive JsError : Type :=
| StateNotArray
| TypeError
| OtherError (msg : string).

Inductive result (A : Type) : Type :=
| Ok (a : A)
| Throw (e : JsError).

Arguments Ok {A} a.
Arguments Throw {A} e.

Definition rbind {A B : Type} (m : result A) (k : A -> result B) : result B :=
  match m with
  | Ok a => k a
  | Throw e => Throw e
  end.

Declare Scope result_scope.
Delimit Scope result_scope with result.
Notation "'let?' x ':=' m 'in' k" := (rbind m (fun x => k))
  (at level 10, x name, m at level 100, k at level 200) : result_scope.
Local Open Scope result_scope.

(** ** Strings *)

(** [String.prototype.toLowerCase], on the ASCII letters (strings are
    byte strings here; bytes outside [A-Z] are left as they are). *)
Definition lower_ascii (c : ascii) : ascii :=
  let n := nat_of_ascii c in
  if (65 <=? n)%nat && (n <=? 90)%nat then ascii_of_nat (n + 32) else c.

Fixpoint toLowerCase (s : string) : string :=
  match s with
  | EmptyString => EmptyString
  | String c s' => String (lower_ascii c) (toLowerCase s')
  end.

(** [id.replace('-', '_')]: a string pattern replaces its first
    occurrence only. *)
Fixpoint replace_hyphen (id : string) : string :=
  match id with
  | EmptyString => EmptyString
  | String c id' =>
      if (c =? "-")%char then String "_"%char id'
      else String c (replace_hyphen id')
  end.

Definition elementIdToComponentKey (id : string) : string := replace_hyphen id.

(** ** Plain objects used as maps *)

(** A property key is an array index when it is the canonical decimal
    numeral of an integer below 2^32 - 1.  Such keys are enumerated
    first, in ascending numeric order. *)
Definition digit_of (c : ascii) : option N :=
  let n := N_of_ascii c in
  if (48 <=? n)%N && (n <=? 57)%N then Some (n - 48)%N else None.

Fixpoint digits_value (acc : N) (s : string) : option N :=
  match s with
  | EmptyString => Some acc
  | String c s' =>
      match digit_of c with
      | Some d => digits_value (10 * acc + d)%N s'
      | None => None
      end
  end.

Definition array_index (k : string) : option N :=
  match k with
  | EmptyString => None
  | String c k' =>
      if (c =? "0")%char && negb (k' =? "") then None
      else match digits_value 0%N k with
           | Some n => if (n <? 4294967295)%N then Some n else None
           | None => None
           end
  end.

Definition is_array_index (k : string) : bool :=
  match array_index k with Some _ => true | None => false end.

Section JsObject.
Context {V : Type}.

(** The own enumerable string-keyed properties of an object, in the
    order in which the keys were created. *)
Definition JsObject : Type := list (string * V).

Fixpoint obj_get (k : string) (o : JsObject) : option V :=
  match o with
  | [] => None
  | (k', v) :: o' => if k' =? k then Some v else obj_get k o'
  end.

(** Writing an existing key keeps its place; a new key goes last. *)
Fixpoint obj_put (k : string) (v : V) (o : JsObject) : JsObject :=
  match o with
  | [] => [(k, v)]
  | (k', v') :: o' =>
      if k' =? k then (k, v) :: o' else (k', v') :: obj_put k v o'
  end.

(** [o[k] = v] on an object created by [{}], for [v] an object.
    The key ["__proto__"] reaches the accessor inherited from
    [Object.prototype], which changes the prototype of [o] and creates
    no own property. *)
Definition obj_set (k : string) (v : V) (o : JsObject) : JsObject :=
  if k =? "__proto__" then o else obj_put k v o.

(** Insertion of an indexed entry in a list sorted by index. *)
Fixpoint insert_by_index (n : N) (e : string * V)
         (l : list (N * (string * V))) : list (N * (string * V)) :=
  match l with
  | [] => [(n, e)]
  | (m, e') :: l' =>
      if (n <=? m)%N then (n, e) :: (m, e') :: l'
      else (m, e') :: insert_by_index n e l'
  end.

Fixpoint index_entries (o : JsObject) : list (N * (string * V)) :=
  match o with
  | [] => []
  | (k, v) :: o' =>
      match array_index k with
      | Some n => insert_by_index n (k, v) (index_entries o')
      | None => index_entries o'
      end
  end.

Definition named_entries (o : JsObject) : JsObject :=
  filter (fun e => negb (is_array_index (fst e))) o.

(** [Object.entries(o)]: array-index keys in ascending order, then the
    other keys in creation order. *)
Definition Object_entries (o : JsObject) : list (string * V) :=
  map snd (index_entries o) ++ named_entries o.

Definition Object_keys (o : JsObject) : list string :=
  map fst (Object_entries o).

Definition Object_values (o : JsObject) : list V :=
  map snd (Object_entries o).
End JsObject.

Arguments JsObject V : clear implicits.

(** ** JavaScript values *)

(** The values a filter [state] and the argument of [stateEquals] range
    over.  Numbers are the integers and [NaN]; objects and arrays carry
    the identity [ref] that [===] compares.  Functions are not values
    of this universe, so the members an object inherits from its
    prototype never compare equal to a modelled value. *)
#[local] Set Warnings "-register-all".

Inductive JsValue : Type :=
| VUndefined
| VNull
| VBool (b : bool)
| VNum (n : Z)
| VNaN
| VStr (s : string)
| VObj (ref : nat) (props : list (string * JsValue))
| VArr (ref : nat) (elems : list JsValue).

Inductive JsType : Type := TUndefined | TObject | TBoolean | TNumber | TString.

Definition JsType_eqb (a b : JsType) : bool :=
  match a, b with
  | TUndefined, TUndefined | TObject, TObject | TBoolean, TBoolean
  | TNumber, TNumber | TString, TString => true
  | _, _ => false
  end.

(** [typeof x]; [typeof null] is ['object'], and so is [typeof] of an
    array. *)
Definition typeof (x : JsValue) : JsType :=
  match x with
  | VUndefined => TUndefined
  | VNull => TObject
  | VBool _ => TBoolean
  | VNum _ | VNaN => TNumber
  | VStr _ => TString
  | VObj _ _ | VArr _ _ => TObject
  end.

(** [x === y]: primitives by value ([NaN] equal to nothing), objects and
    arrays by identity. *)
Definition strict_eq (x y : JsValue) : bool :=
  match x, y with
  | VUndefined, VUndefined => true
  | VNull, VNull => true
  | VBool a, VBool b => Bool.eqb a b
  | VNum a, VNum b => (a =? b)%Z
  | VStr a, VStr b => (a =? b)%string
  | VObj r _, VObj r' _ => (r =? r')%nat
  | VArr r _, VArr r' _ => (r =? r')%nat
  | _, _ => false
  end.

(** SameValueZero, the comparison of [Array.prototype.includes]:
    [===], except that [NaN] is found. *)
Definition same_value_zero (x y : JsValue) : bool :=
  match x, y with
  | VNaN, VNaN => true
  | _, _ => strict_eq x y
  end.

(** [arr.includes(v)] *)
Definition includes (arr : list JsValue) (v : JsValue) : bool :=
  existsb (fun x => same_value_zero x v) arr.

(** [x instanceof Array] *)
Definition instanceof_Array (x : JsValue) : bool :=
  match x with
  | VArr _ _ => true
  | _ => false
  end.

Definition index_key (i : nat) : string :=
  NilEmpty.string_of_uint (Nat.to_uint i).

(** [Object.keys(x)], called on values of type ['object'] only; it
    throws on [null]. *)
Definition keys_of (x : JsValue) : result (list string) :=
  match x with
  | VObj _ props => Ok (Object_keys props)
  | VArr _ elems => Ok (map index_key (seq 0 (length elems)))
  | VNull | VUndefined => Throw TypeError
  | _ => Ok []
  end.

(** [key in x], on own properties and the [length] of an array. *)
Definition has_property (key : string) (x : JsValue) : bool :=
  match x with
  | VObj _ props =>
      match obj_get key props with Some _ => true | None => false end
  | VArr _ elems =>
      match array_index key with
      | Some n => (N.to_nat n <? length elems)%nat
      | None => key =? "length"
      end
  | _ => false
  end.

(** [x[key]] *)
Definition get_property (x : JsValue) (key : string) : JsValue :=
  match x with
  | VObj _ props =>
      match obj_get key props with Some v => v | None => VUndefined end
  | VArr _ elems =>
      match array_index key with
      | Some n => nth (N.to_nat n) elems VUndefined
      | None =>
          if key =? "length" then VNum (Z.of_nat (length elems))
          else VUndefined
      end
  | _ => VUndefined
  end.

(** ** Reports and the date library *)

(** A submission, with the fields the modelled code reads ([latitude]
    and [longitude] are floating-point numbers that it never touches). *)
Record Report : Type := {
  report_id : Z;
  parking_time : string;
  parking_duration : string;
  issues : list string;
  comments : option string
}.

(** What the filters call outside of the modelled file, taken as
    parameters: [parseParkingTime] of [api_tools.js], and of the date
    library [interval.contains(dt)] (a [TypeError] when the element of
    [state] has no such method) and [dt.weekday] (the ISO weekday 1..7,
    Monday = 1; [None] stands for the [NaN] of an invalid date). *)
Class DateLibrary : Type := {
  DateTime : Type;
  parseParkingTime : string -> DateTime;
  Interval_contains : JsValue -> DateTime -> result bool;
  DateTime_weekday : DateTime -> option Z
}.

(** [dt.weekday] as a value. *)
Definition weekday `{DateLibrary} (dt : DateTime) : JsValue :=
  match DateTime_weekday dt with
  | Some n => VNum n
  | None => VNaN
  end.

(** ** ReportFilter and its subclasses *)

Inductive FilterClass : Type :=
| IssuesFilter
| DateRangeFilter
| WeekDayPeriodFilter
| ParkingDurationFilter.

Definition filterKey (c : FilterClass) : string :=
  match c with
  | IssuesFilter => "issues"
  | DateRangeFilter => "date_range"
  | WeekDayPeriodFilter => "weekday_period"
  | ParkingDurationFilter => "parking_duration"
  end.

(** An instance: its class and the [_state] field. *)
Record ReportFilter : Type := {
  class_of : FilterClass;
  _state : list JsValue
}.

(** The constructor of the base class. *)
Definition ReportFilter_constructor (state : JsValue) : result (list JsValue) :=
  match state with
  | VArr _ elems => Ok elems
  | _ => Throw StateNotArray
  end.

(** [x.toLowerCase()] for an element [x] of [state]: only a string has
    the method. *)
Definition call_toLowerCase (x : JsValue) : result JsValue :=
  match x with
  | VStr s => Ok (VStr (toLowerCase s))
  | _ => Throw TypeError
  end.

(** [arr.map(f)] for a callback that may throw. *)
Fixpoint map_result {A B : Type} (f : A -> result B) (l : list A)
  : result (list B) :=
  match l with
  | [] => Ok []
  | x :: l' =>
      let? y := f x in
      let? ys := map_result f l' in
      Ok (y :: ys)
  end.

(** [new C(state)] for each of the four subclasses: all call [super];
    [WeekDayPeriodFilter] then lower-cases the names. *)
Definition new_filter (c : FilterClass) (state : JsValue) : result ReportFilter :=
  let? st := ReportFilter_constructor state in
  match c with
  | WeekDayPeriodFilter =>
      let? st' := map_result call_toLowerCase st in
      Ok {| class_of := c; _state := st' |}
  | _ => Ok {| class_of := c; _state := st |}
  end.

Definition dayIndex : JsObject JsValue :=
  [ ("monday", VNum 1); ("tuesday", VNum 2); ("wednesday", VNum 3);
    ("thursday", VNum 4); ("friday", VNum 5); ("saturday", VNum 6);
    ("sunday", VNum 7) ].

(** [this.#dayIndex[x]] *)
Definition dayIndex_of (x : JsValue) : JsValue :=
  match x with
  | VStr name =>
      match obj_get name dayIndex with Some n => n | None => VUndefined end
  | _ => VUndefined
  end.

Section Filters.
Context `{DateLibrary}.

(** The loop of [DateRangeFilter.test]. *)
Fixpoint DateRange_loop (state : list JsValue) (dt : DateTime) : result bool :=
  match state with
  | [] => Ok false
  | interval :: rest =>
      let? inside := Interval_contains interval dt in
      if inside then Ok true else DateRange_loop rest dt
  end.

(** [f.test(report)], dispatched on the class of [f]. *)
Definition test (f : ReportFilter) (report : Report) : result bool :=
  match class_of f with
  | IssuesFilter =>
      Ok (existsb (fun value => includes (_state f) (VStr value))
                  (issues report))
  | DateRangeFilter =>
      let dt := parseParkingTime (parking_time report) in
      DateRange_loop (_state f) dt
  | WeekDayPeriodFilter =>
      let dt := parseParkingTime (parking_time report) in
      let inclWeekdays := map dayIndex_of (_state f) in
      Ok (includes inclWeekdays (weekday dt))
  | ParkingDurationFilter =>
      Ok (includes (_state f) (VStr (parking_duration report)))
  end.
End Filters.

(** [deepEquals(x1, x2)]: the loop over [Object.keys(x1)], then the
    method. *)
Fixpoint deepEquals_loop (x1 x2 : JsValue) (keys : list string) : bool :=
  match keys with
  | [] => true
  | key1 :: rest =>
      if negb (has_property key1 x2) then false
      else if negb (strict_eq (get_property x1 key1) (get_property x2 key1))
           then false
           else deepEquals_loop x1 x2 rest
  end.

Definition deepEquals (x1 x2 : JsValue) : result bool :=
  if negb (JsType_eqb (typeof x1) (typeof x2)) then Ok false
  else if JsType_eqb (typeof x1) TObject then
    let? keys1 := keys_of x1 in
    let? keys2 := keys_of x2 in
    if negb (length keys1 =? length keys2)%nat then Ok false
    else Ok (deepEquals_loop x1 x2 keys1)
  else Ok (strict_eq x1 x2).

(** [stateEquals(otherState)]: the loop from index [i], over the
    elements of [_state] not yet compared, then the method. *)
Fixpoint stateEquals_loop (i : nat) (rest otherState : list JsValue)
  : result bool :=
  match rest with
  | [] => Ok true
  | x :: rest' =>
      let? same := deepEquals x (nth i otherState VUndefined) in
      if negb same then Ok false
      else stateEquals_loop (S i) rest' otherState
  end.

Definition stateEquals (f : ReportFilter) (otherState : JsValue) : result bool :=
  match otherState with
  | VArr _ other =>
      if negb (length (_state f) =? length other)%nat then Ok false
      else stateEquals_loop 0 (_state f) other
  | _ => Ok false
  end.

(** ** The store *)

(** A reference to a filter mapping (a plain object whose properties
    are filter instances).  The store and its callers hold references
    to the same objects, which live in the [Heap]. *)
Definition loc : Type := nat.

Record Heap : Type := {
  next_loc : loc;
  cell : loc -> JsObject ReportFilter
}.

Definition heap_alloc (o : JsObject ReportFilter) (h : Heap) : loc * Heap :=
  (next_loc h,
   {| next_loc := S (next_loc h);
      cell := fun l => if (l =? next_loc h)%nat then o else cell h l |}).

Definition empty_heap : Heap := {| next_loc := 0; cell := fun _ => [] |}.

(** [obj[k] = flt] through a reference [l], by whoever holds it. *)
Definition heap_write (l : loc) (k : string) (flt : ReportFilter) (h : Heap)
  : Heap :=
  {| next_loc := next_loc h;
     cell := fun l' => if (l' =? l)%nat then obj_set k flt (cell h l)
                       else cell h l' |}.

(** A widget: its [root_id] and what its own [refresh] does with the
    [display_data] it reads from the store, which is to return or to
    throw (the redrawing itself happens outside of the store). *)
Record Component : Type := {
  root_id : string;
  Component_refresh : list Report -> result unit
}.

Record SharedState : Type := {
  components : JsObject Component;
  _filters : loc;
  response_data : list Report;
  _display_data : list Report
}.

(** What an execution does, in order: the two assignments of the
    [filters] setter and each call of a component's [refresh], with the
    [display_data] the store holds at the time of the call. *)
Inductive Event : Type :=
| EvSetFilters (f : loc)
| EvSetDisplayData (d : list Report)
| EvRefresh (c : Component) (seen : list Report).

Record World : Type := {
  store : SharedState;
  heap : Heap;
  log : list Event
}.

(** Computations on the world that may throw; the world reached when an
    exception leaves the computation is kept. *)
Definition M (A : Type) : Type := World -> result A * World.

Definition ret {A : Type} (a : A) : M A := fun w => (Ok a, w).

Definition bind {A B : Type} (m : M A) (k : A -> M B) : M B :=
  fun w =>
    match m w with
    | (Ok a, w') => k a w'
    | (Throw e, w') => (Throw e, w')
    end.

Declare Scope store_scope.
Delimit Scope store_scope with store.
Notation "x <- m ;; k" := (bind m (fun x => k))
  (at level 61, m at next level, right associativity) : store_scope.
Notation "m ;; k" := (bind m (fun _ => k))
  (at level 61, right associativity) : store_scope.
Local Open Scope store_scope.

Definition lift {A : Type} (r : result A) : M A := fun w => (r, w).

Definition get_store : M SharedState := fun w => (Ok (store w), w).

Definition modify_store (f : SharedState -> SharedState) : M unit :=
  fun w => (Ok tt, {| store := f (store w); heap := heap w; log := log w |}).

Definition deref (l : loc) : M (JsObject ReportFilter) :=
  fun w => (Ok (cell (heap w) l), w).

Definition emit (e : Event) : M unit :=
  fun w => (Ok tt, {| store := store w; heap := heap w; log := log w ++ [e] |}).

Definition with_components (cs : JsObject Component) (st : SharedState)
  : SharedState :=
  {| components := cs; _filters := _filters st;
     response_data := response_data st; _display_data := _display_data st |}.

Definition with_filters (f : loc) (st : SharedState) : SharedState :=
  {| components := components st; _filters := f;
     response_data := response_data st; _display_data := _display_data st |}.

Definition with_display_data (d : list Report) (st : SharedState)
  : SharedState :=
  {| components := components st; _filters := _filters st;
     response_data := response_data st; _display_data := d |}.

(** [new SharedState(data)]: the world that holds the new store and the
    empty filter mapping it allocates. *)
Definition SharedState_constructor (submissions : list Report) : World :=
  let (l, h) := heap_alloc [] empty_heap in
  {| store := {| components := []; _filters := l;
                 response_data := submissions;
                 _display_data := submissions |};
     heap := h;
     log := [] |}.

Definition registerComponent (component : Component) : M string :=
  let key := elementIdToComponentKey (root_id component) in
  modify_store (fun st =>
    with_components (obj_set key component (components st)) st) ;;
  ret key.

(** [module.refresh()] *)
Definition call_refresh (c : Component) : M unit :=
  st <- get_store ;;
  emit (EvRefresh c (_display_data st)) ;;
  lift (Component_refresh c (_display_data st)).

Fixpoint refresh_loop (modules : list Component) : M unit :=
  match modules with
  | [] => ret tt
  | c :: rest => call_refresh c ;; refresh_loop rest
  end.

Definition refresh : M unit :=
  st <- get_store ;;
  refresh_loop (Object_values (components st)).

(** [arr.filter(p)] for a callback that may throw. *)
Fixpoint filter_result {A : Type} (p : A -> result bool) (l : list A)
  : result (list A) :=
  match l with
  | [] => Ok []
  | x :: l' =>
      let? keep := p x in
      let? rest := filter_result p l' in
      Ok (if keep then x :: rest else rest)
  end.

Section Store.
Context `{DateLibrary}.

(** The loop of [applyFilters] over [filter_list]. *)
Fixpoint applyFilters_loop (filter_list : list (string * ReportFilter))
         (return_data : list Report) : result (list Report) :=
  match filter_list with
  | [] => Ok return_data
  | (_, reportFilter) :: rest =>
      let? return_data' :=
        filter_result (fun r => test reportFilter r) return_data in
      applyFilters_loop rest return_data'
  end.

Definition applyFilters (st : SharedState) (filters : JsObject ReportFilter)
  : result (list Report) :=
  let filter_list := Object_entries filters in
  if (0 <? length filter_list)%nat
  then applyFilters_loop filter_list (response_data st)
  else Ok (response_data st).

(** [get filters()] *)
Definition get_filters : M loc :=
  st <- get_store ;; ret (_filters st).

(** [set filters(f)] *)
Definition set_filters (f : loc) : M unit :=
  modify_store (with_filters f) ;;
  emit (EvSetFilters f) ;;
  st <- get_store ;;
  filters <- deref (_filters st) ;;
  d <- lift (applyFilters st filters) ;;
  modify_store (with_display_data d) ;;
  emit (EvSetDisplayData d) ;;
  refresh.

(** [get display_data()] *)
Definition get_display_data : M (list Report) :=
  st <- get_store ;; ret (_display_data st).
End Store.

(** The constructor of [Component], for the store: it registers the
    new component and keeps the key as [root_key]. *)
Definition Component_constructor (c : Component) : M string :=
  registerComponent c.

(** Components constructed one after the other. *)
Fixpoint construct_all (cs : list Component) : M unit :=
  match cs with
  | [] => ret tt
  | c :: rest => Component_constructor c ;; construct_all rest
  end.

(** The filter mapping the store holds. *)
Definition FilterState (w : World) : JsObject ReportFilter :=
  cell (heap w) (_filters (store w)).

(** The calls of [refresh] in a log, in order. *)
Fixpoint refresh_calls (l : list Event) : list Component :=
  match l with
  | [] => []
  | EvRefresh c _ :: l' => c :: refresh_calls l'
  | _ :: l' => refresh_calls l'
  end.

(** An object literal evaluated by a caller: a new mapping, with the
    given properties. *)
Definition new_object (o : JsObject ReportFilter) : M loc :=
  fun w =>
    let (l, h) := heap_alloc o (heap w) in
    (Ok l, {| store := store w; heap := h; log := log w |}).

(** [obj[k] = flt] by a caller that holds the reference [l]. *)
Definition assign_property (l : loc) (k : string) (flt : ReportFilter)
  : M unit :=
  fun w =>
    (Ok tt, {| store := store w; heap := heap_write l k flt (heap w);
               log := log w |}).

(** [new C(state)] as an expression evaluated in a world. *)
Definition new_ReportFilter (c : FilterClass) (state : JsValue)
  : M ReportFilter :=
  lift (new_filter c state).

(** ** Notions used in the statements *)

Definition component_key (c : Component) : string :=
  elementIdToComponentKey (root_id c).

Fixpoint has_underscore (s : string) : bool :=
  match s with
  | EmptyString => false
  | String c s' => (c =? "_")%char || has_underscore s'
  end.

(** [l'] is [l] with some elements left out. *)
Inductive Subseq {A : Type} : list A -> list A -> Prop :=
| Subseq_nil : Subseq [] []
| Subseq_keep x l' l : Subseq l' l -> Subseq (x :: l') (x :: l)
| Subseq_drop x l' l : Subseq l' l -> Subseq l' (x :: l).

Section Statements.
Context `{DateLibrary}.

(** The filter returns [true] on the report. *)
Definition accepts (f : ReportFilter) (r : Report) : bool :=
  match test f r with
  | Ok true => true
  | _ => false
  end.

(** Every filter of the mapping returns [true] on the report. *)
Definition accepts_all (F : JsObject ReportFilter) (r : Report) : bool :=
  forallb (fun kf => accepts (snd kf) r) F.

(** The dataset filtered by the mapping that [f] points to. *)
Definition recomputed (w : World) (f : loc) : list Report :=
  filter (accepts_all (cell (heap w) f)) (response_data (store w)).

(** No [test] of the mapping throws on a report of the dataset. *)
Definition tests_return (F : JsObject ReportFilter) (D : list Report) : Prop :=
  forall k f r, In (k, f) F -> In r D -> exists b, test f r = Ok b.
End Statements.

(** Two strings that differ in the case of their letters only. *)
Definition upper_ascii (c : ascii) : ascii :=
  let n := nat_of_ascii c in
  if (97 <=? n)%nat && (n <=? 122)%nat then ascii_of_nat (n - 32) else c.

Inductive case_variant : string -> string -> Prop :=
| cv_empty : case_variant "" ""
| cv_same c s1 s2 :
    case_variant s1 s2 -> case_variant (String c s1) (String c s2)
| cv_lower c s1 s2 :
    case_variant s1 s2 -> case_variant (String c s1) (String (lower_ascii c) s2)
| cv_upper c s1 s2 :
    case_variant s1 s2 -> case_variant (String c s1) (String (upper_ascii c) s2).

(** Deep equality of two values as the specification words it:
    structural, whatever the identity of the objects compared. *)
Fixpoint deep_equal (x y : JsValue) : bool :=
  match x, y with
  | VUndefined, VUndefined => true
  | VNull, VNull => true
  | VBool a, VBool b => Bool.eqb a b
  | VNum a, VNum b => (a =? b)%Z
  | VNaN, VNaN => true
  | VStr a, VStr b => (a =? b)%string
  | VObj _ p, VObj _ q =>
      (fix props (p q : list (string * JsValue)) : bool :=
         match p, q with
         | [], [] => true
         | (k, v) :: p', (k', v') :: q' =>
             (k =? k')%string && deep_equal v v' && props p' q'
         | _, _ => false
         end) p q
  | VArr _ l, VArr _ m =>
      (fix elems (l m : list JsValue) : bool :=
         match l, m with
         | [], [] => true
         | v :: l', v' :: m' => deep_equal v v' && elems l' m'
         | _, _ => false
         end) l m
  | _, _ => false
  end.

(** One-level equality, which is what [deepEquals] decides: the same
    [typeof]; for two objects the same number of keys, each key of the
    first a property of the second with a [===] value; otherwise [===]. *)
Definition shallow_equal (x y : JsValue) : Prop :=
  typeof x = typeof y /\
  (typeof x = TObject ->
     exists keys1 keys2,
       keys_of x = Ok keys1 /\ keys_of y = Ok keys2 /\
       length keys1 = length keys2 /\
       forall key, In key keys1 ->
         has_property key y = true /\
         strict_eq (get_property x key) (get_property y key) = true) /\
  (typeof x <> TObject -> strict_eq x y = true).

(** ** A date library and data to evaluate the model on *)

Module Sample.
(** Dates as a time stamp in seconds and a weekday. *)
Definition parse (s : string) : Z * Z :=
  if s =? "Sat, 06 Jan 2024 09:22:06 GMT" then (1704532926, 6)%Z
  else if s =? "Wed, 03 Jan 2024 18:05:00 GMT" then (1704305100, 3)%Z
  else (0, 4)%Z.

(** An interval is an object with numeric [s] and [e]; [contains] is
    half-open. *)
Definition contains (interval : JsValue) (dt : Z * Z) : result bool :=
  match interval with
  | VObj _ props =>
      match obj_get "s" props, obj_get "e" props with
      | Some (VNum s), Some (VNum e) =>
          Ok ((s <=? fst dt)%Z && (fst dt <? e)%Z)
      | _, _ => Throw TypeError
      end
  | _ => Throw TypeError
  end.

#[export] Instance dates : DateLibrary := {|
  DateTime := Z * Z;
  parseParkingTime := parse;
  Interval_contains := contains;
  DateTime_weekday := fun dt => Some (snd dt)
|}.

Definition report (n : Z) (time duration : string) (tags : list string)
  : Report :=
  {| report_id := n; parking_time := time; parking_duration := duration;
     issues := tags; comments := None |}.

Definition saturday : Report :=
  report 1 "Sat, 06 Jan 2024 09:22:06 GMT" "hours" ["full"].
Definition wednesday : Report :=
  report 2 "Wed, 03 Jan 2024 18:05:00 GMT" "minutes" ["damaged"; "full"].
Definition thursday : Report :=
  report 3 "" "overnight" [].

Definition submissions : list Report := [saturday; wednesday; thursday].

Definition widget (id : string) : Component :=
  {| root_id := id; Component_refresh := fun _ => Ok tt |}.

Definition broken_widget (id : string) : Component :=
  {| root_id := id;
     Component_refresh := fun _ => Throw (OtherError "cannot draw") |}.

Definition issues_full : ReportFilter :=
  {| class_of := IssuesFilter; _state := [VStr "full"] |}.
Definition duration_hours : ReportFilter :=
  {| class_of := ParkingDurationFilter; _state := [VStr "hours"] |}.
Definition date_null : ReportFilter :=
  {| class_of := DateRangeFilter; _state := [VNull] |}.
Definition january_first : JsValue :=
  VObj 7 [("s", VNum 1704067200); ("e", VNum 1704153600)].
End Sample.

(** ** Further notions *)

Fixpoint has_hyphen (s : string) : bool :=
  match s with
  | EmptyString => false
  | String c s' => (c =? "-")%char || has_hyphen s'
  end.


(** A primitive value, or an object with each key once; not an array. *)
Definition plain_value (x : JsValue) : Prop :=
  match x with
  | VObj _ props => NoDup (map fst props)
  | VArr _ _ => False
  | _ => True
  end.

(** ** The analytics helper of Component *)

(** What [console.log] printed: a message and one value. *)
Definition Console : Type := list (string * JsValue).

Definition quote_mark : string := String (ascii_of_nat 34) EmptyString.

(** [data ?? null] *)
Definition nullish_or_null (data : JsValue) : JsValue :=
  match data with
  | VUndefined | VNull => VNull
  | _ => data
  end.

Section Analytics.
Context {T : Type}.

(** [umami.track], with one or two arguments, on the state [T] of the
    analytics service; it throws when the service is not there. *)
Variable track : string -> option JsValue -> T -> result unit * T.

(** [analytics_event(event_name, data)] *)
Definition analytics_event (event_name : string) (data : JsValue)
  (s : T * Console) : result unit * (T * Console) :=
  let (umami, console) := s in
  let attempt :=
    if negb (strict_eq data VUndefined)
    then track event_name (Some data) umami
    else track event_name None umami in
  match attempt with
  | (Ok _, umami') => (Ok tt, (umami', console))
  | (Throw _, umami') =>
      (Ok tt,
       (umami',
        console ++
          [(("Analytics not active to track " ++ quote_mark ++ event_name
               ++ quote_mark)%string,
            nullish_or_null data)]))
  end.
End Analytics.

(** * Properties *)

(** ** Plain objects *)

Section ObjectFacts.
Context {V : Type}.
Implicit Types (o : JsObject V) (k : string) (v : V).

Lemma obj_get_put_same k v o : obj_get k (obj_put k v o) = Some v.
Proof.
  induction o as [|[k' v'] o IH]; simpl.
  - now rewrite String.eqb_refl.
  - destruct (k' =? k) eqn:E; simpl.
    + now rewrite String.eqb_refl.
    + now rewrite E.
Qed.

Lemma obj_get_put_other k k' v o :
  k <> k' -> obj_get k' (obj_put k v o) = obj_get k' o.
Proof.
  intros Hne. induction o as [|[k0 v0] o IH]; simpl.
  - destruct (String.eqb_spec k k'); [contradiction | reflexivity].
  - destruct (String.eqb_spec k0 k) as [->|Hk0]; simpl.
    + destruct (String.eqb_spec k k'); [contradiction | reflexivity].
    + destruct (k0 =? k'); [reflexivity | exact IH].
Qed.

Lemma obj_put_fresh k v o :
  ~ In k (map fst o) -> obj_put k v o = o ++ [(k, v)].
Proof.
  induction o as [|[k0 v0] o IH]; simpl; intros Hnin.
  - reflexivity.
  - destruct (String.eqb_spec k0 k) as [->|Hk0].
    + exfalso. apply Hnin. now left.
    + f_equal. apply IH. intros Hin. apply Hnin. now right.
Qed.

Lemma obj_set_named k v o :
  k <> "__proto__" -> obj_set k v o = obj_put k v o.
Proof.
  intros Hk. unfold obj_set.
  destruct (String.eqb_spec k "__proto__"); [contradiction | reflexivity].
Qed.
End ObjectFacts.

(** ** Registration *)

Lemma registerComponent_run (c : Component) (w : World) :
  registerComponent c w =
  (Ok (component_key c),
   {| store := with_components
                 (obj_set (component_key c) c (components (store w))) (store w);
      heap := heap w; log := log w |}).
Proof. reflexivity. Qed.

(** C3, as amended: two components whose derived keys differ (and are
    not ["__proto__"]) are registered under two distinct keys of the
    registry, whatever it held before; the second registration does not
    overwrite the first. *)
Theorem registerComponent_distinct_keys (c1 c2 : Component) (w : World)
  (Hkeys : component_key c1 <> component_key c2)
  (Hproto1 : component_key c1 <> "__proto__")
  (Hproto2 : component_key c2 <> "__proto__") :
  exists w',
    (k1 <- registerComponent c1 ;; k2 <- registerComponent c2 ;; ret (k1, k2)) w
    = (Ok (component_key c1, component_key c2), w') /\
    obj_get (component_key c1) (components (store w')) = Some c1 /\
    obj_get (component_key c2) (components (store w')) = Some c2.
Proof.
  eexists. split; [reflexivity|]. simpl.
  fold (component_key c1) (component_key c2).
  rewrite !obj_set_named by assumption. split.
  - rewrite obj_get_put_other by congruence. apply obj_get_put_same.
  - apply obj_get_put_same.
Qed.

Lemma registerComponent_distinct_keys_witness :
  exists w',
    (k1 <- registerComponent (Sample.widget "issue-chart") ;;
     k2 <- registerComponent (Sample.widget "map") ;; ret (k1, k2))
      (SharedState_constructor Sample.submissions)
    = (Ok ("issue_chart", "map"), w') /\
    obj_get "issue_chart" (components (store w'))
    = Some (Sample.widget "issue-chart") /\
    obj_get "map" (components (store w')) = Some (Sample.widget "map").
Proof.
  apply (registerComponent_distinct_keys
           (Sample.widget "issue-chart") (Sample.widget "map")
           (SharedState_constructor Sample.submissions));
    vm_compute; discriminate.
Defined.

(** C3 as stated fails: the identifiers ["a-b"] and ["a_b"] are distinct
    and have the same key; after both registrations the registry holds
    one entry, the second component. *)
Lemma registerComponent_collision :
  let c1 := Sample.widget "a-b" in
  let c2 := Sample.widget "a_b" in
  let w' := snd ((registerComponent c1 ;; registerComponent c2)
                   (SharedState_constructor Sample.submissions)) in
  root_id c1 <> root_id c2 /\
  components (store w') = [("a_b", c2)] /\
  ~ (exists k1 k2, k1 <> k2 /\
       obj_get k1 (components (store w')) = Some c1 /\
       obj_get k2 (components (store w')) = Some c2).
Proof.
  intros c1 c2 w'.
  change (components (store w')) with [("a_b", c2)].
  split; [discriminate|]. split; [reflexivity|].
  intros (k1 & k2 & Hne & H1 & H2).
  cbn [obj_get] in H1.
  destruct ("a_b" =? k1); [|discriminate].
  injection H1 as H1. discriminate H1.
Qed.

(** X2: on identifiers without an underscore the key determines the
    identifier. *)
Lemma elementIdToComponentKey_inj (id1 id2 : string) :
  has_underscore id1 = false -> has_underscore id2 = false ->
  elementIdToComponentKey id1 = elementIdToComponentKey id2 -> id1 = id2.
Proof.
  unfold elementIdToComponentKey.
  revert id2. induction id1 as [|c1 s1 IH]; intros [|c2 s2]; simpl;
    try reflexivity.
  - destruct (c2 =? "-")%char; discriminate.
  - destruct (c1 =? "-")%char; discriminate.
  - intros H1 H2.
    apply orb_false_iff in H1 as [Hc1 Hs1].
    apply orb_false_iff in H2 as [Hc2 Hs2].
    destruct (Ascii.eqb_spec c1 "-") as [->|N1];
      destruct (Ascii.eqb_spec c2 "-") as [->|N2]; intros E;
      inversion E; subst.
    + reflexivity.
    + discriminate Hc2.
    + discriminate Hc1.
    + f_equal. now apply IH.
Qed.

(** ** Enumeration order *)

Lemma filter_all {A : Type} (p : A -> bool) (l : list A) :
  (forall x, In x l -> p x = true) -> filter p l = l.
Proof.
  induction l as [|x l IH]; simpl; intros Hp.
  - reflexivity.
  - rewrite Hp by now left. f_equal. apply IH. intros y Hy. apply Hp. now right.
Qed.

Section EnumerationFacts.
Context {V : Type}.
Implicit Types (o : JsObject V).

Lemma insert_by_index_perm n (e : string * V) l :
  Permutation (insert_by_index n e l) ((n, e) :: l).
Proof.
  induction l as [|[m e'] l IH]; simpl.
  - reflexivity.
  - destruct (n <=? m)%N.
    + reflexivity.
    + rewrite IH. apply perm_swap.
Qed.

Lemma index_entries_perm o :
  Permutation (map snd (index_entries o))
              (filter (fun e => is_array_index (fst e)) o).
Proof.
  induction o as [|[k v] o IH]; simpl.
  - reflexivity.
  - unfold is_array_index at 1. destruct (array_index k) as [n|].
    + rewrite (Permutation_map snd (insert_by_index_perm n (k, v) _)).
      simpl. now constructor.
    + exact IH.
Qed.

Lemma filter_partition_perm {A : Type} (p : A -> bool) (l : list A) :
  Permutation (filter p l ++ filter (fun x => negb (p x)) l) l.
Proof.
  induction l as [|x l IH]; simpl.
  - reflexivity.
  - destruct (p x); simpl.
    + now constructor.
    + symmetry. apply Permutation_cons_app. now symmetry.
Qed.

(** [Object.entries] lists every own property once. *)
Lemma Object_entries_perm o : Permutation (Object_entries o) o.
Proof.
  unfold Object_entries, named_entries.
  rewrite index_entries_perm. apply filter_partition_perm.
Qed.

(** Without array-index keys the enumeration is the creation order. *)
Lemma Object_entries_named o :
  Forall (fun e => is_array_index (fst e) = false) o ->
  Object_entries o = o.
Proof.
  intros Hnamed. unfold Object_entries, named_entries.
  assert (Hidx : index_entries o = []).
  { induction Hnamed as [|[k v] o Hk Ho IH]; simpl in *.
    - reflexivity.
    - unfold is_array_index in Hk.
      destruct (array_index k); [discriminate | exact IH]. }
  rewrite Hidx. simpl. apply filter_all.
  intros e He. rewrite Forall_forall in Hnamed.
  now rewrite (Hnamed e He).
Qed.
End EnumerationFacts.

(** ** Arrays *)

Lemma filter_none {A : Type} (p : A -> bool) (l : list A) :
  (forall x, In x l -> p x = false) -> filter p l = [].
Proof.
  induction l as [|x l IH]; simpl; intros Hp.
  - reflexivity.
  - rewrite Hp by now left. apply IH. intros y Hy. apply Hp. now right.
Qed.

Lemma filter_filter {A : Type} (p q : A -> bool) (l : list A) :
  filter q (filter p l) = filter (fun x => p x && q x) l.
Proof.
  induction l as [|x l IH]; simpl.
  - reflexivity.
  - destruct (p x); simpl; [destruct (q x)|]; now rewrite IH.
Qed.

Lemma filter_Subseq {A : Type} (p : A -> bool) (l : list A) :
  Subseq (filter p l) l.
Proof.
  induction l as [|x l IH]; simpl.
  - constructor.
  - destruct (p x); now constructor.
Qed.

Lemma forallb_perm {A : Type} (g : A -> bool) (l l' : list A) :
  Permutation l l' -> forallb g l = forallb g l'.
Proof.
  induction 1 as [| x l l' _ IH | x y l | l l' l'' _ IH1 _ IH2]; simpl.
  - reflexivity.
  - now rewrite IH.
  - now destruct (g x), (g y).
  - now rewrite IH1.
Qed.

(** [filter] with a callback that returns on every element is the
    [filter] of lists. *)
Lemma filter_result_returns {A : Type} (p : A -> result bool) (l : list A) :
  (forall x, In x l -> exists b, p x = Ok b) ->
  filter_result p l
  = Ok (filter (fun x => match p x with Ok true => true | _ => false end) l).
Proof.
  induction l as [|x l IH]; simpl; intros Hp.
  - reflexivity.
  - destruct (Hp x) as [b Hb]; [now left|]. rewrite Hb. simpl.
    rewrite IH by (intros y Hy; apply Hp; now right). simpl.
    now destruct b.
Qed.

(** ** Filter composition *)

Section ApplyFiltersFacts.
Context `{DateLibrary}.
Implicit Types (F : JsObject ReportFilter) (D : list Report).

Lemma tests_return_perm F F' D :
  Permutation F F' -> tests_return F D -> tests_return F' D.
Proof.
  intros HP Hret k f r Hin. apply (Hret k f r).
  apply Permutation_in with (l := F'); [now symmetry | exact Hin].
Qed.

Lemma accepts_all_perm F F' r :
  Permutation F F' -> accepts_all F r = accepts_all F' r.
Proof. apply forallb_perm. Qed.

Lemma applyFilters_loop_returns F D :
  tests_return F D ->
  applyFilters_loop F D = Ok (filter (accepts_all F) D).
Proof.
  revert D. induction F as [|[k f] F IH]; intros D Hret; simpl.
  - f_equal. symmetry. now apply filter_all.
  - rewrite filter_result_returns
      by (intros r Hr; apply (Hret k f r); [now left | exact Hr]).
    simpl. fold (accepts f). rewrite IH.
    + now rewrite filter_filter.
    + intros k' f' r Hin Hr. apply filter_In in Hr as [Hr _].
      apply (Hret k' f' r); [now right | exact Hr].
Qed.

Lemma applyFilters_returns (st : SharedState) F :
  tests_return F (response_data st) ->
  applyFilters st F = Ok (filter (accepts_all F) (response_data st)).
Proof.
  intros Hret. unfold applyFilters.
  pose proof (Object_entries_perm F) as HP.
  destruct (0 <? length (Object_entries F))%nat eqn:E.
  - rewrite applyFilters_loop_returns
      by (apply tests_return_perm with (F := F); [now symmetry | exact Hret]).
    f_equal. apply filter_ext. intros r. now apply accepts_all_perm.
  - apply Nat.ltb_ge in E.
    destruct (Object_entries F); [|simpl in E; lia].
    apply Permutation_nil in HP. subst F.
    f_equal. symmetry. now apply filter_all.
Qed.

Lemma test_empty_state (c : FilterClass) (r : Report) :
  test {| class_of := c; _state := [] |} r = Ok false.
Proof.
  destruct c; try reflexivity.
  unfold test. simpl. f_equal.
  induction (issues r) as [|value l IH]; [reflexivity | exact IH].
Qed.

Lemma accepts_all_empty_state F (k : string) (c : FilterClass) (r : Report) :
  In (k, {| class_of := c; _state := [] |}) F -> accepts_all F r = false.
Proof.
  intros Hin. destruct (accepts_all F r) eqn:E; [|reflexivity].
  unfold accepts_all in E. rewrite forallb_forall in E.
  specialize (E _ Hin). unfold accepts in E. simpl in E.
  now rewrite test_empty_state in E.
Qed.

(** C4: when the tests return, [applyFilters] keeps exactly the
    reports on which every filter of the mapping returns [true], in
    the order of the dataset, and the result is the same for every
    order of the keys of the mapping. *)
Theorem applyFilters_conjunction (st : SharedState) F
  (Hret : tests_return F (response_data st)) :
  applyFilters st F = Ok (filter (accepts_all F) (response_data st)) /\
  (forall r, accepts_all F r = true <->
             forall k f, In (k, f) F -> test f r = Ok true) /\
  (forall F', Permutation F F' -> applyFilters st F' = applyFilters st F).
Proof.
  split; [|split].
  - now apply applyFilters_returns.
  - intros r. unfold accepts_all. rewrite forallb_forall. split.
    + intros Hall k f Hin. specialize (Hall _ Hin). unfold accepts in Hall.
      simpl in Hall. destruct (test f r) as [[|]|]; congruence.
    + intros Hall [k f] Hin. unfold accepts. simpl.
      now rewrite (Hall k f Hin).
  - intros F' HP.
    rewrite (applyFilters_returns st F Hret).
    rewrite (applyFilters_returns st F' (tests_return_perm _ _ _ HP Hret)).
    f_equal. apply filter_ext. intros r. symmetry. now apply accepts_all_perm.
Qed.

(** C5: the result of [applyFilters] is the dataset with some reports
    left out: no report is added, repeated or moved. *)
Theorem applyFilters_subsequence (st : SharedState) F
  (Hret : tests_return F (response_data st)) :
  exists l, applyFilters st F = Ok l /\ Subseq l (response_data st).
Proof.
  exists (filter (accepts_all F) (response_data st)). split.
  - now apply applyFilters_returns.
  - apply filter_Subseq.
Qed.

(** C6: the empty mapping leaves the dataset as it is. *)
Theorem applyFilters_empty (st : SharedState) :
  applyFilters st [] = Ok (response_data st).
Proof. reflexivity. Qed.
End ApplyFiltersFacts.

(** ** The refresh broadcast *)

Lemma world_eta (w : World) :
  {| store := store w; heap := heap w; log := log w |} = w.
Proof. now destruct w. Qed.

Lemma call_refresh_run (c : Component) (w : World) :
  call_refresh c w =
  (Component_refresh c (_display_data (store w)),
   {| store := store w; heap := heap w;
      log := log w ++ [EvRefresh c (_display_data (store w))] |}).
Proof. reflexivity. Qed.

(** The broadcast changes neither the store nor the heap, however it
    ends. *)
Lemma refresh_loop_frame (cs : list Component) (w : World) :
  store (snd (refresh_loop cs w)) = store w /\
  heap (snd (refresh_loop cs w)) = heap w.
Proof.
  revert w. induction cs as [|c cs IH]; intros w; simpl.
  - now split.
  - unfold bind. rewrite call_refresh_run.
    destruct (Component_refresh c (_display_data (store w))) as [[]|e]; simpl.
    + destruct (IH {| store := store w; heap := heap w;
                      log := log w ++ [EvRefresh c (_display_data (store w))] |})
        as [Hs Hh].
      now rewrite Hs, Hh.
    + now split.
Qed.

(** When no [refresh] throws, every component of the list is called
    once, in the order of the list. *)
Lemma refresh_loop_returns (cs : list Component) (w : World) :
  Forall (fun c => Component_refresh c (_display_data (store w)) = Ok tt) cs ->
  refresh_loop cs w =
  (Ok tt,
   {| store := store w; heap := heap w;
      log := log w ++ map (fun c => EvRefresh c (_display_data (store w))) cs |}).
Proof.
  revert w. induction cs as [|c cs IH]; intros w Hok; simpl.
  - unfold ret. now rewrite app_nil_r, world_eta.
  - inversion Hok as [|c' cs' Hc Hcs]; subst.
    unfold bind. rewrite call_refresh_run, Hc.
    rewrite IH by exact Hcs. simpl. now rewrite <- app_assoc.
Qed.

(** A [refresh] that throws ends the broadcast: the components after
    it are not called. *)
Lemma refresh_loop_throws (pre post : list Component) (c : Component)
      (e : JsError) (w : World) :
  Forall (fun c => Component_refresh c (_display_data (store w)) = Ok tt) pre ->
  Component_refresh c (_display_data (store w)) = Throw e ->
  refresh_loop (pre ++ c :: post) w =
  (Throw e,
   {| store := store w; heap := heap w;
      log := log w ++ map (fun c => EvRefresh c (_display_data (store w)))
                          (pre ++ [c]) |}).
Proof.
  revert w. induction pre as [|p pre IH]; intros w Hok Hc; simpl.
  - unfold bind. now rewrite call_refresh_run, Hc.
  - inversion Hok as [|p' pre' Hp Hpre]; subst.
    unfold bind. rewrite call_refresh_run, Hp.
    rewrite IH by assumption. simpl. now rewrite <- app_assoc.
Qed.

(** ** Registration order *)

Lemma with_components_same (st : SharedState) :
  with_components (components st) st = st.
Proof. now destruct st. Qed.

Lemma construct_all_fresh (cs : list Component) (w : World) :
  NoDup (map component_key cs) ->
  (forall c, In c cs ->
     ~ In (component_key c) (map fst (components (store w))) /\
     component_key c <> "__proto__") ->
  construct_all cs w =
  (Ok tt,
   {| store := with_components
                 (components (store w) ++ map (fun c => (component_key c, c)) cs)
                 (store w);
      heap := heap w; log := log w |}).
Proof.
  revert w. induction cs as [|c cs IH]; intros w Hnd Hfresh; simpl.
  - unfold ret. now rewrite app_nil_r, with_components_same, world_eta.
  - inversion Hnd as [|k ks Hk Hks]; subst.
    destruct (Hfresh c) as [Hc Hp]; [now left|].
    unfold Component_constructor, bind. rewrite registerComponent_run.
    rewrite obj_set_named, obj_put_fresh by assumption.
    rewrite IH; simpl.
    + now rewrite <- app_assoc.
    + exact Hks.
    + intros c' Hc'. destruct (Hfresh c') as [Hn Hp']; [now right|].
      split; [|exact Hp'].
      rewrite map_app, in_app_iff. simpl. intros [Hin|[Heq|[]]].
      * now apply Hn.
      * apply Hk. rewrite Heq. now apply in_map.
Qed.

(** Components registered on a new store under pairwise distinct keys,
    none an array index or ["__proto__"], are enumerated in the order
    of their registration. *)
Lemma registration_order (cs : list Component) (submissions : list Report) :
  NoDup (map component_key cs) ->
  Forall (fun c => is_array_index (component_key c) = false /\
                   component_key c <> "__proto__") cs ->
  Object_values
    (components
       (store (snd (construct_all cs (SharedState_constructor submissions)))))
  = cs.
Proof.
  intros Hnd Hnamed. rewrite Forall_forall in Hnamed.
  rewrite construct_all_fresh.
  - simpl. unfold Object_values. rewrite Object_entries_named.
    + rewrite map_map. simpl. apply map_id.
    + apply Forall_forall. intros e He. apply in_map_iff in He as (c & <- & Hc).
      simpl. now apply Hnamed.
  - exact Hnd.
  - intros c Hc. split; [now intros [] | now apply Hnamed].
Qed.

(** ** The filters accessors *)

Section SetterFacts.
Context `{DateLibrary}.

(** The setter, step by step: the reference is stored, the mapping
    it points to is applied to the dataset, the result is stored, and
    the broadcast follows; a [test] that throws leaves the new
    reference with the former [_display_data]. *)
Lemma set_filters_run (f : loc) (w : World) :
  set_filters f w =
  match applyFilters (store w) (cell (heap w) f) with
  | Ok d =>
      refresh_loop (Object_values (components (store w)))
        {| store := with_display_data d (with_filters f (store w));
           heap := heap w;
           log := (log w ++ [EvSetFilters f]) ++ [EvSetDisplayData d] |}
  | Throw e =>
      (Throw e,
       {| store := with_filters f (store w); heap := heap w;
          log := log w ++ [EvSetFilters f] |})
  end.
Proof.
  unfold set_filters, bind, modify_store, emit, get_store, deref, lift,
    refresh. simpl.
  change (applyFilters (with_filters f (store w)) (cell (heap w) f))
    with (applyFilters (store w) (cell (heap w) f)).
  now destruct (applyFilters (store w) (cell (heap w) f)).
Qed.

(** When the tests return and no [refresh] throws, the setter runs to
    its end and the log grows by the two assignments and one call for
    each value of the registry. *)
Lemma set_filters_returns (f : loc) (w : World) :
  tests_return (cell (heap w) f) (response_data (store w)) ->
  Forall (fun c => Component_refresh c (recomputed w f) = Ok tt)
         (Object_values (components (store w))) ->
  set_filters f w =
  (Ok tt,
   {| store := with_display_data (recomputed w f) (with_filters f (store w));
      heap := heap w;
      log := log w ++ EvSetFilters f :: EvSetDisplayData (recomputed w f) ::
               map (fun c => EvRefresh c (recomputed w f))
                   (Object_values (components (store w))) |}).
Proof.
  intros Hret Hok. rewrite set_filters_run.
  rewrite (applyFilters_returns (store w) _ Hret). fold (recomputed w f).
  rewrite refresh_loop_returns by exact Hok. simpl.
  now rewrite <- !app_assoc.
Qed.

Lemma set_filters_frame (f : loc) (w : World) :
  _filters (store (snd (set_filters f w))) = f /\
  heap (snd (set_filters f w)) = heap w.
Proof.
  rewrite set_filters_run.
  destruct (applyFilters (store w) (cell (heap w) f)) as [d|e].
  - match goal with
    | |- context [refresh_loop ?cs ?w0] =>
        destruct (refresh_loop_frame cs w0) as [Hs Hh]
    end.
    now rewrite Hs, Hh.
  - now split.
Qed.

Lemma set_filters_display_data (f : loc) (w : World) (d : list Report) :
  applyFilters (store w) (cell (heap w) f) = Ok d ->
  _display_data (store (snd (set_filters f w))) = d.
Proof.
  intros Hd. rewrite set_filters_run, Hd.
  match goal with
  | |- context [refresh_loop ?cs ?w0] =>
      destruct (refresh_loop_frame cs w0) as [Hs _]
  end.
  now rewrite Hs.
Qed.

(** C1, as amended: an assignment to [filters] whose tests return
    stores the mapping, then the recomputed data, and only then calls
    [refresh] once on every component of the registry, in the order of
    [Object.values], each call seeing the recomputed data (no [refresh]
    throwing).  That order is the registration order when the
    components were registered under pairwise distinct keys, none an
    array index or ["__proto__"]. *)
Theorem filters_setter_broadcast (w : World) (f : loc)
  (Hret : tests_return (cell (heap w) f) (response_data (store w)))
  (Hrefresh : Forall (fun c => Component_refresh c (recomputed w f) = Ok tt)
                     (Object_values (components (store w)))) :
  applyFilters (store w) (cell (heap w) f) = Ok (recomputed w f) /\
  set_filters f w =
  (Ok tt,
   {| store := with_display_data (recomputed w f) (with_filters f (store w));
      heap := heap w;
      log := log w ++ EvSetFilters f :: EvSetDisplayData (recomputed w f) ::
               map (fun c => EvRefresh c (recomputed w f))
                   (Object_values (components (store w))) |}) /\
  (forall (cs : list Component) (submissions : list Report),
     components (store w)
     = components
         (store (snd (construct_all cs (SharedState_constructor submissions)))) ->
     NoDup (map component_key cs) ->
     Forall (fun c => is_array_index (component_key c) = false /\
                      component_key c <> "__proto__") cs ->
     Object_values (components (store w)) = cs).
Proof.
  split; [now apply applyFilters_returns|]. split.
  - now apply set_filters_returns.
  - intros cs submissions Hreg Hkeys Hnamed.
    rewrite Hreg. now apply registration_order.
Qed.

(** C2, as amended: the read accessor returns the stored reference
    itself, so an assignment to a property of the object it returns
    changes the mapping the store holds, without recomputing the
    data and without a broadcast; the setter keeps the reference it is
    given; registration and the broadcast leave the mapping alone. *)
Theorem filters_getter_aliases (w : World) (k : string) (flt : ReportFilter)
  (f : loc) (c : Component) :
  get_filters w = (Ok (_filters (store w)), w) /\
  (let w' := snd ((l <- get_filters ;; assign_property l k flt) w) in
   FilterState w' = obj_set k flt (FilterState w) /\
   store w' = store w /\ log w' = log w) /\
  _filters (store (snd (set_filters f w))) = f /\
  FilterState (snd (set_filters f w)) = cell (heap w) f /\
  FilterState (snd (registerComponent c w)) = FilterState w /\
  FilterState (snd (refresh w)) = FilterState w.
Proof.
  split; [reflexivity|]. split; [|split; [|split; [|split]]].
  - simpl. unfold FilterState. simpl. now rewrite Nat.eqb_refl.
  - apply set_filters_frame.
  - unfold FilterState. destruct (set_filters_frame f w) as [Hf Hh].
    now rewrite Hf, Hh.
  - reflexivity.
  - unfold FilterState, refresh, bind, get_store.
    destruct (refresh_loop_frame (Object_values (components (store w))) w)
      as [Hs Hh].
    now rewrite Hs, Hh.
Qed.

(** C10: a filter with an empty [state] returns [false] on every
    report, for each of the four classes; a mapping that holds one
    gives the empty data, in [applyFilters] and through the setter,
    while the empty mapping gives the whole dataset. *)
Theorem empty_state_rejects_all (c : FilterClass) (ref : nat) (r : Report)
  (w : World) (f : loc) (k : string)
  (Hin : In (k, {| class_of := c; _state := [] |}) (cell (heap w) f))
  (Hret : tests_return (cell (heap w) f) (response_data (store w))) :
  new_filter c (VArr ref []) = Ok {| class_of := c; _state := [] |} /\
  test {| class_of := c; _state := [] |} r = Ok false /\
  applyFilters (store w) (cell (heap w) f) = Ok [] /\
  _display_data (store (snd (set_filters f w))) = [] /\
  applyFilters (store w) [] = Ok (response_data (store w)).
Proof.
  assert (Hnone : applyFilters (store w) (cell (heap w) f) = Ok []).
  { rewrite (applyFilters_returns _ _ Hret). f_equal.
    apply filter_none. intros r' _.
    now apply accepts_all_empty_state with (k := k) (c := c). }
  split; [now destruct c|]. split; [apply test_empty_state|].
  split; [exact Hnone|]. split; [|reflexivity].
  now apply set_filters_display_data.
Qed.
End SetterFacts.

(** ** Construction *)

Lemma map_result_toLowerCase_error (l : list JsValue) (e : JsError) :
  map_result call_toLowerCase l = Throw e -> e = TypeError.
Proof.
  induction l as [|x l IH]; simpl; [discriminate|].
  destruct x; simpl; try (intros E; now injection E).
  destruct (map_result call_toLowerCase l); simpl.
  - discriminate.
  - intros E. injection E as <-. now apply IH.
Qed.

Lemma map_result_toLowerCase_names (names : list string) :
  map_result call_toLowerCase (map VStr names)
  = Ok (map (fun s => VStr (toLowerCase s)) names).
Proof.
  induction names as [|s names IH]; simpl; [reflexivity|].
  now rewrite IH.
Qed.

(** C7: for each of the four classes the constructor throws the error
    of [ReportFilter] exactly when [state] is not an array, and
    evaluating the construction leaves the world, hence the store, as
    it was. *)
Theorem constructor_rejects_non_array (c : FilterClass) (state : JsValue)
  (w : World) :
  (new_filter c state = Throw StateNotArray <->
   instanceof_Array state = false) /\
  new_ReportFilter c state w = (new_filter c state, w).
Proof.
  split; [|reflexivity].
  destruct state; simpl; try (split; intros _; reflexivity).
  split; [|discriminate].
  unfold new_filter. cbn [ReportFilter_constructor rbind].
  intros E. destruct c; try discriminate.
  destruct (map_result call_toLowerCase elems) eqn:Elower;
    cbn [rbind] in E; [discriminate|].
  injection E as ->. apply map_result_toLowerCase_error in Elower.
  discriminate.
Qed.

(** An array that holds something else than strings is accepted by
    [ReportFilter] and makes [WeekDayPeriodFilter] fail with the
    [TypeError] of the missing method. *)
Lemma WeekDayPeriodFilter_non_string :
  new_filter WeekDayPeriodFilter (VArr 0 [VNum 1]) = Throw TypeError /\
  new_filter IssuesFilter (VArr 0 [VNum 1])
  = Ok {| class_of := IssuesFilter; _state := [VNum 1] |}.
Proof. split; reflexivity. Qed.

(** ** Weekday names *)

Lemma lower_ascii_idem (c : ascii) : lower_ascii (lower_ascii c) = lower_ascii c.
Proof. destruct c as [[] [] [] [] [] [] [] []]; reflexivity. Qed.

Lemma lower_upper_ascii (c : ascii) : lower_ascii (upper_ascii c) = lower_ascii c.
Proof. destruct c as [[] [] [] [] [] [] [] []]; reflexivity. Qed.

Lemma case_variant_toLowerCase (s1 s2 : string) :
  case_variant s1 s2 -> toLowerCase s1 = toLowerCase s2.
Proof.
  induction 1 as [| c s1 s2 _ IH | c s1 s2 _ IH | c s1 s2 _ IH]; simpl.
  - reflexivity.
  - now rewrite IH.
  - now rewrite IH, lower_ascii_idem.
  - now rewrite IH, lower_upper_ascii.
Qed.

Lemma case_variant_names (names1 names2 : list string) :
  Forall2 case_variant names1 names2 ->
  map toLowerCase names1 = map toLowerCase names2.
Proof.
  induction 1 as [|s1 s2 l1 l2 Hs _ IH]; simpl; [reflexivity|].
  now rewrite IH, (case_variant_toLowerCase _ _ Hs).
Qed.

Lemma new_WeekDayPeriodFilter_names (names : list string) (ref : nat) :
  new_filter WeekDayPeriodFilter (VArr ref (map VStr names))
  = Ok {| class_of := WeekDayPeriodFilter;
          _state := map (fun s => VStr (toLowerCase s)) names |}.
Proof.
  unfold new_filter. cbn [ReportFilter_constructor rbind].
  now rewrite map_result_toLowerCase_names.
Qed.

(** The filters built from two lists of names that differ in case only
    are the same. *)
Lemma WeekDayPeriodFilter_case (names1 names2 : list string) (r1 r2 : nat) :
  Forall2 case_variant names1 names2 ->
  new_filter WeekDayPeriodFilter (VArr r1 (map VStr names1))
  = new_filter WeekDayPeriodFilter (VArr r2 (map VStr names2)).
Proof.
  intros Hcv. rewrite !new_WeekDayPeriodFilter_names.
  do 2 f_equal. rewrite <- !(map_map toLowerCase VStr). f_equal.
  now apply case_variant_names.
Qed.

(** C8: built from the names Saturday and Sunday in any letter case,
    the filter is the same one; it accepts every report whose parking
    time falls on a Saturday (weekday 6) and rejects every report whose
    parking time falls on a Wednesday (weekday 3). *)
Theorem weekday_filter_weekend `{DateLibrary} (names : list string)
  (ref : nat) (r : Report)
  (Hnames : Forall2 case_variant ["Saturday"; "Sunday"] names) :
  let weekend := {| class_of := WeekDayPeriodFilter;
                    _state := [VStr "saturday"; VStr "sunday"] |} in
  new_filter WeekDayPeriodFilter (VArr ref (map VStr names)) = Ok weekend /\
  (DateTime_weekday (parseParkingTime (parking_time r)) = Some 6%Z ->
   test weekend r = Ok true) /\
  (DateTime_weekday (parseParkingTime (parking_time r)) = Some 3%Z ->
   test weekend r = Ok false).
Proof.
  intros weekend. split; [|split].
  - rewrite <- (WeekDayPeriodFilter_case _ _ ref ref Hnames). reflexivity.
  - intros Hsat. unfold test, weekday. simpl. now rewrite Hsat.
  - intros Hwed. unfold test, weekday. simpl. now rewrite Hwed.
Qed.

(** ** State comparison *)

Lemma JsType_eqb_spec (a b : JsType) : reflect (a = b) (JsType_eqb a b).
Proof. destruct a, b; constructor; congruence. Qed.

Lemma deepEquals_loop_true (x y : JsValue) (keys : list string) :
  deepEquals_loop x y keys = true <->
  forall key, In key keys ->
    has_property key y = true /\
    strict_eq (get_property x key) (get_property y key) = true.
Proof.
  induction keys as [|key1 keys IH]; simpl.
  - split; [intros _ key [] | reflexivity].
  - destruct (has_property key1 y) eqn:Hin; simpl.
    + destruct (strict_eq (get_property x key1) (get_property y key1)) eqn:Heq;
        simpl.
      * rewrite IH. split.
        -- intros Hall key [<-|Hkey]; [now split | now apply Hall].
        -- intros Hall key Hkey. apply Hall. now right.
      * split; [discriminate|]. intros Hall.
        destruct (Hall key1) as [_ Heq']; [now left | congruence].
    + split; [discriminate|]. intros Hall.
      destruct (Hall key1) as [Hin' _]; [now left | congruence].
Qed.

(** [deepEquals] returns [true] exactly on one-level equal values. *)
Lemma deepEquals_true (x y : JsValue) :
  deepEquals x y = Ok true <-> shallow_equal x y.
Proof.
  unfold deepEquals, shallow_equal.
  destruct (JsType_eqb_spec (typeof x) (typeof y)) as [Ht|Ht]; simpl;
    [|split; [discriminate | now intros [Ht' _]]].
  destruct (JsType_eqb_spec (typeof x) TObject) as [Ho|Ho].
  - destruct (keys_of x) as [keys1|e1]; simpl.
    + destruct (keys_of y) as [keys2|e2]; simpl.
      * destruct (Nat.eqb_spec (length keys1) (length keys2)) as [Hl|Hl]; simpl.
        -- split.
           ++ intros E. injection E as E.
              pose proof (proj1 (deepEquals_loop_true _ _ _) E) as Hall.
              split; [exact Ht|]. split; [|now intros].
              intros _. now exists keys1, keys2.
           ++ intros (_ & Hobj & _).
              destruct (Hobj Ho) as (k1 & k2 & E1 & E2 & _ & Hall).
              injection E1 as <-. f_equal. now apply deepEquals_loop_true.
        -- split; [discriminate|]. intros (_ & Hobj & _).
           destruct (Hobj Ho) as (k1 & k2 & E1 & E2 & Hl' & _).
           injection E1 as <-. injection E2 as <-. contradiction.
      * split; [discriminate|]. intros (_ & Hobj & _).
        destruct (Hobj Ho) as (k1 & k2 & _ & E2 & _). discriminate.
    + split; [discriminate|]. intros (_ & Hobj & _).
      destruct (Hobj Ho) as (k1 & k2 & E1 & _). discriminate.
  - split.
    + intros E. injection E as E. split; [exact Ht|]. split; [now intros|].
      now intros _.
    + intros (_ & _ & Hprim). f_equal. now apply Hprim.
Qed.

Lemma stateEquals_loop_true (rest pre suf : list JsValue) :
  length rest = length suf ->
  stateEquals_loop (length pre) rest (pre ++ suf) = Ok true <->
  Forall2 shallow_equal rest suf.
Proof.
  revert pre suf. induction rest as [|x rest IH]; intros pre suf Hlen; simpl.
  - destruct suf; [|discriminate]. split; [constructor | reflexivity].
  - destruct suf as [|y suf]; [discriminate|].
    rewrite nth_middle.
    destruct (deepEquals x y) as [[|]|e] eqn:E; simpl.
    + specialize (IH (pre ++ [y]) suf).
      rewrite length_app, Nat.add_1_r, <- app_assoc in IH. simpl in IH.
      rewrite IH by (simpl in Hlen; lia). split.
      * intros HF. constructor; [now apply deepEquals_true | exact HF].
      * intros HF. now inversion HF.
    + split; [discriminate|]. intros HF. inversion HF as [|? ? ? ? Hxy _]; subst.
      apply deepEquals_true in Hxy. congruence.
    + split; [discriminate|]. intros HF. inversion HF as [|? ? ? ? Hxy _]; subst.
      apply deepEquals_true in Hxy. congruence.
Qed.

(** C9, as amended: [stateEquals] tells ["a","b"] from ["b","a"],
    equates [{x:1}] with another [{x:1}], and in general returns
    [true] exactly when the argument is an array of the same length
    whose elements are one-level equal to those of the state: values
    inside an object are compared with [===], so by identity when
    they are objects. *)
Theorem stateEquals_one_level (c : FilterClass) (state : list JsValue)
  (otherState : JsValue) (r1 r2 r3 r4 : nat) :
  stateEquals {| class_of := c; _state := [VStr "a"; VStr "b"] |}
              (VArr r1 [VStr "b"; VStr "a"]) = Ok false /\
  stateEquals {| class_of := c; _state := [VObj r2 [("x", VNum 1)]] |}
              (VArr r3 [VObj r4 [("x", VNum 1)]]) = Ok true /\
  (stateEquals {| class_of := c; _state := state |} otherState = Ok true <->
   exists ref other,
     otherState = VArr ref other /\
     length state = length other /\
     Forall2 shallow_equal state other).
Proof.
  split; [reflexivity|]. split; [reflexivity|].
  unfold stateEquals. cbn [_state].
  destruct otherState as [ | | | | | | | ref other];
    try (split; [discriminate | now intros (? & ? & ? & _)]).
  destruct (Nat.eqb_spec (length state) (length other)) as [Hl|Hl]; simpl.
  - rewrite (stateEquals_loop_true state [] other Hl). split.
    + intros HF. now exists ref, other.
    + intros (ref' & other' & E & _ & HF). now injection E as <- <-.
  - split; [discriminate|].
    intros (ref' & other' & E & Hl' & _). injection E as <- <-. contradiction.
Qed.

(** ** The model at work *)

(** Only the test of [DateRangeFilter] can throw. *)
Lemma test_returns `{DateLibrary} (f : ReportFilter) (r : Report) :
  class_of f <> DateRangeFilter -> exists b, test f r = Ok b.
Proof.
  intros Hc. unfold test. destruct (class_of f); try (eexists; reflexivity).
  contradiction.
Qed.

Lemma tests_return_no_date_range `{DateLibrary} (F : JsObject ReportFilter)
      (D : list Report) :
  Forall (fun kf => class_of (snd kf) <> DateRangeFilter) F ->
  tests_return F D.
Proof.
  intros HF k f r Hin _. rewrite Forall_forall in HF.
  apply test_returns. exact (HF _ Hin).
Qed.

Lemma filters_setter_broadcast_witness :
  let cs := [Sample.widget "map"; Sample.widget "issue-chart"] in
  let w0 := snd (construct_all cs (SharedState_constructor Sample.submissions)) in
  let w := snd (new_object [("issues", Sample.issues_full);
                            ("parking_duration", Sample.duration_hours)] w0) in
  let d := [Sample.saturday] in
  applyFilters (H := Sample.dates) (store w) (cell (heap w) 1) = Ok d /\
  set_filters (H := Sample.dates) 1 w =
  (Ok tt,
   {| store := with_display_data d (with_filters 1 (store w));
      heap := heap w;
      log := [EvSetFilters 1; EvSetDisplayData d;
              EvRefresh (Sample.widget "map") d;
              EvRefresh (Sample.widget "issue-chart") d] |}) /\
  Object_values (components (store w)) = cs.
Proof.
  intros cs w0 w d.
  destruct (filters_setter_broadcast (H := Sample.dates) w 1)
    as (Hd & Hset & Horder).
  - apply tests_return_no_date_range. repeat constructor; discriminate.
  - repeat constructor.
  - split; [exact Hd|]. split; [exact Hset|].
    apply (Horder cs Sample.submissions).
    + reflexivity.
    + repeat constructor; simpl; intuition discriminate.
    + repeat constructor; discriminate.
Defined.

(** C1 as stated fails.  Of two components registered as ["b"] and
    then ["1"], the second is refreshed first: an array-index key is
    enumerated before the other keys.  Of three registered as ["x-y"],
    ["z"] and ["x_y"], the third takes the key of the first, and its
    place before the second; the first is not refreshed. *)
Lemma refresh_not_in_registration_order :
  let refreshed cs :=
    refresh_calls
      (log (snd (set_filters (H := Sample.dates) 0
                   (snd (construct_all cs
                           (SharedState_constructor Sample.submissions)))))) in
  let cs1 := [Sample.widget "b"; Sample.widget "1"] in
  let cs2 := [Sample.widget "x-y"; Sample.widget "z"; Sample.widget "x_y"] in
  refreshed cs1 = [Sample.widget "1"; Sample.widget "b"] /\
  refreshed cs1 <> cs1 /\
  refreshed cs2 = [Sample.widget "x_y"; Sample.widget "z"] /\
  refreshed cs2 <> cs2 /\
  refreshed cs2 <> [Sample.widget "z"; Sample.widget "x_y"].
Proof.
  intros refreshed cs1 cs2.
  assert (E1 : refreshed cs1 = [Sample.widget "1"; Sample.widget "b"])
    by reflexivity.
  assert (E2 : refreshed cs2 = [Sample.widget "x_y"; Sample.widget "z"])
    by reflexivity.
  split; [exact E1|]. split; [|split; [exact E2|split]].
  - rewrite E1. intros Heq. injection Heq as Heq _. discriminate Heq.
  - rewrite E2. discriminate.
  - rewrite E2. intros Heq. injection Heq as Heq _. discriminate Heq.
Qed.

(** A component registered as ["__proto__"] gets no entry. *)
Lemma registerComponent_proto :
  components
    (store (snd (registerComponent (Sample.widget "__proto__")
                   (SharedState_constructor Sample.submissions))))
  = [].
Proof. reflexivity. Qed.

(** A [refresh] that throws leaves the later components without a call,
    with the new data already stored. *)
Lemma refresh_stops_at_exception :
  let cs := [Sample.widget "map"; Sample.broken_widget "chart";
             Sample.widget "sidebar"] in
  let w := snd (construct_all cs (SharedState_constructor Sample.submissions)) in
  fst (set_filters (H := Sample.dates) 0 w)
  = Throw (OtherError "cannot draw") /\
  refresh_calls (log (snd (set_filters (H := Sample.dates) 0 w)))
  = [Sample.widget "map"; Sample.broken_widget "chart"].
Proof. split; reflexivity. Qed.

(** C2 as stated fails: an assignment to a property of the object the
    read accessor returns changes the mapping the store holds. *)
Lemma filters_getter_returns_live_reference :
  let w := SharedState_constructor Sample.submissions in
  let w' := snd ((l <- get_filters ;;
                  assign_property l "issues" Sample.issues_full) w) in
  FilterState w = [] /\
  FilterState w' = [("issues", Sample.issues_full)] /\
  FilterState w' <> FilterState w.
Proof.
  intros w w'. split; [reflexivity|]. split; [reflexivity|].
  change (FilterState w') with [("issues", Sample.issues_full)].
  change (FilterState w) with (@nil (string * ReportFilter)).
  discriminate.
Qed.

Lemma applyFilters_conjunction_witness :
  let st := store (SharedState_constructor Sample.submissions) in
  let F := [("issues", Sample.issues_full);
            ("parking_duration", Sample.duration_hours)] in
  applyFilters (H := Sample.dates) st F = Ok [Sample.saturday] /\
  applyFilters (H := Sample.dates) st (rev F) = Ok [Sample.saturday].
Proof.
  intros st F.
  destruct (applyFilters_conjunction (H := Sample.dates) st F) as (Hf & _ & Hperm).
  - apply tests_return_no_date_range. repeat constructor; discriminate.
  - split.
    + rewrite Hf. reflexivity.
    + rewrite (Hperm (rev F) (Permutation_rev F)), Hf. reflexivity.
Defined.

(** With a test that throws the order of the keys shows: the filter of
    the empty state, first, leaves the second nothing to test. *)
Lemma applyFilters_order_with_throwing_test :
  let st := store (SharedState_constructor Sample.submissions) in
  let none := {| class_of := IssuesFilter; _state := [] |} in
  applyFilters (H := Sample.dates) st
    [("issues", none); ("date_range", Sample.date_null)] = Ok [] /\
  applyFilters (H := Sample.dates) st
    [("date_range", Sample.date_null); ("issues", none)] = Throw TypeError.
Proof. split; reflexivity. Qed.

Lemma applyFilters_subsequence_witness :
  let st := store (SharedState_constructor Sample.submissions) in
  let F := [("issues", Sample.issues_full);
            ("date_range",
             {| class_of := DateRangeFilter;
                _state := [Sample.january_first] |})] in
  exists l, applyFilters (H := Sample.dates) st F = Ok l /\
            Subseq l Sample.submissions.
Proof.
  intros st F.
  apply (applyFilters_subsequence (H := Sample.dates) st F).
  intros k f r [E|[E|[]]] Hr; injection E as <- <-.
  - apply test_returns. discriminate.
  - destruct Hr as [<-|[<-|[<-|[]]]]; eexists; reflexivity.
Defined.

Lemma weekday_filter_weekend_witness :
  let weekend := {| class_of := WeekDayPeriodFilter;
                    _state := [VStr "saturday"; VStr "sunday"] |} in
  new_filter WeekDayPeriodFilter (VArr 0 [VStr "SATURDAY"; VStr "sunday"])
  = Ok weekend /\
  test (H := Sample.dates) weekend Sample.saturday = Ok true /\
  test (H := Sample.dates) weekend Sample.wednesday = Ok false.
Proof.
  intros weekend.
  assert (Hnames : Forall2 case_variant ["Saturday"; "Sunday"]
                                        ["SATURDAY"; "sunday"]).
  { repeat constructor;
      repeat first [ apply cv_empty | apply cv_same
                   | apply (cv_upper "a") | apply (cv_upper "t")
                   | apply (cv_upper "u") | apply (cv_upper "r")
                   | apply (cv_upper "d") | apply (cv_upper "y")
                   | apply (cv_lower "S") ]. }
  destruct (weekday_filter_weekend (H := Sample.dates)
              ["SATURDAY"; "sunday"] 0 Sample.saturday Hnames)
    as (Hnew & Hsat & _).
  destruct (weekday_filter_weekend (H := Sample.dates)
              ["SATURDAY"; "sunday"] 0 Sample.wednesday Hnames)
    as (_ & _ & Hwed).
  split; [exact Hnew|]. split; [now apply Hsat | now apply Hwed].
Defined.

(** C9 as stated fails: two objects that hold structurally equal
    objects are deeply equal, and [stateEquals] tells them apart. *)
Lemma stateEquals_nested_objects :
  let x := VObj 1 [("x", VObj 2 [("y", VNum 1)])] in
  let y := VObj 3 [("x", VObj 4 [("y", VNum 1)])] in
  let f := {| class_of := IssuesFilter; _state := [x] |} in
  deep_equal x y = true /\
  stateEquals f (VArr 0 [y]) = Ok false /\
  ~ (stateEquals f (VArr 0 [y]) = Ok true <->
     exists ref other,
       VArr 0 [y] = VArr ref other /\
       length (_state f) = length other /\
       Forall2 (fun a b => deep_equal a b = true) (_state f) other).
Proof.
  intros x y f. split; [reflexivity|]. split; [reflexivity|].
  intros [_ Hback].
  assert (E : stateEquals f (VArr 0 [y]) = Ok true).
  { apply Hback. exists 0, [y]. split; [reflexivity|]. split; [reflexivity|].
    constructor; [reflexivity | constructor]. }
  discriminate E.
Qed.

(** [null] in a state makes the comparison throw, and an array is not
    told from an object with the same keys. *)
Lemma stateEquals_null_and_array :
  stateEquals {| class_of := DateRangeFilter; _state := [VNull] |}
              (VArr 0 [VNull]) = Throw TypeError /\
  stateEquals {| class_of := IssuesFilter; _state := [VArr 1 [VNum 5]] |}
              (VArr 0 [VObj 2 [("0", VNum 5)]]) = Ok true.
Proof. split; reflexivity. Qed.

Lemma empty_state_rejects_all_witness :
  let none := {| class_of := IssuesFilter; _state := [] |} in
  let w := snd (new_object [("issues", none);
                            ("parking_duration", Sample.duration_hours)]
                           (SharedState_constructor Sample.submissions)) in
  new_filter IssuesFilter (VArr 0 []) = Ok none /\
  test (H := Sample.dates) none Sample.saturday = Ok false /\
  applyFilters (H := Sample.dates) (store w) (cell (heap w) 1) = Ok [] /\
  _display_data (store (snd (set_filters (H := Sample.dates) 1 w))) = [] /\
  applyFilters (H := Sample.dates) (store w) [] = Ok Sample.submissions.
Proof.
  intros none w.
  apply (empty_state_rejects_all (H := Sample.dates)
           IssuesFilter 0 Sample.saturday w 1 "issues").
  - left. reflexivity.
  - apply tests_return_no_date_range. repeat constructor; discriminate.
Defined.


(** * Further properties *)

(** ** The registry key *)

Lemma replace_hyphen_length (id : string) :
  String.length (replace_hyphen id) = String.length id.
Proof.
  induction id as [|c id IH]; simpl; [reflexivity|].
  destruct (c =? "-")%char; simpl; [reflexivity | now rewrite IH].
Qed.

(** X1: only the first hyphen of an identifier is replaced: an
    identifier without a hyphen is its own key, the key of [a-b] for a
    hyphen-free [a] is [a_b] with [b] as it is, and the key is as long
    as the identifier. *)
Theorem elementIdToComponentKey_first_hyphen (a b : string)
  (Ha : has_hyphen a = false) :
  elementIdToComponentKey a = a /\
  elementIdToComponentKey (a ++ String "-" b)%string
  = (a ++ String "_" b)%string /\
  (forall id, String.length (elementIdToComponentKey id) = String.length id).
Proof.
  unfold elementIdToComponentKey. split; [|split].
  - induction a as [|c a IH]; simpl in *; [reflexivity|].
    apply orb_false_iff in Ha as [Hc Hrest]. rewrite Hc.
    now rewrite IH.
  - induction a as [|c a IH]; simpl in *; [reflexivity|].
    apply orb_false_iff in Ha as [Hc Hrest]. rewrite Hc.
    now rewrite IH.
  - apply replace_hyphen_length.
Qed.

Lemma elementIdToComponentKey_first_hyphen_witness :
  elementIdToComponentKey "issue" = "issue" /\
  elementIdToComponentKey "issue-chart-x" = "issue_chart-x" /\
  (forall id, String.length (elementIdToComponentKey id) = String.length id).
Proof.
  apply (elementIdToComponentKey_first_hyphen "issue" "chart-x").
  reflexivity.
Defined.

Lemma elementIdToComponentKey_inj_witness :
  elementIdToComponentKey "issue-chart" <> elementIdToComponentKey "issue-map".
Proof.
  intros E.
  apply (elementIdToComponentKey_inj "issue-chart" "issue-map") in E;
    [discriminate E | reflexivity | reflexivity].
Defined.

(** ** The registry *)

Lemma obj_get_None_fresh {V : Type} (k : string) (o : JsObject V) :
  obj_get k o = None -> ~ In k (map fst o).
Proof.
  induction o as [|[k' v'] o IH]; simpl; [now intros _ []|].
  destruct (String.eqb_spec k' k) as [->|Hne]; [discriminate|].
  intros Hget [Heq|Hin]; [contradiction | now apply IH].
Qed.



(** X3: registration returns the key under which the component is
    then found; the entries under other keys, the filters, the data,
    the heap and the log are left as they were. *)
Theorem registerComponent_lookup (c : Component) (w : World)
  (Hproto : component_key c <> "__proto__") :
  exists w',
    registerComponent c w = (Ok (component_key c), w') /\
    obj_get (component_key c) (components (store w')) = Some c /\
    (forall k, k <> component_key c ->
       obj_get k (components (store w')) = obj_get k (components (store w))) /\
    _filters (store w') = _filters (store w) /\
    response_data (store w') = response_data (store w) /\
    _display_data (store w') = _display_data (store w) /\
    heap w' = heap w /\ log w' = log w.
Proof.
  eexists. split; [apply registerComponent_run|]. simpl.
  rewrite obj_set_named by exact Hproto.
  split; [apply obj_get_put_same|]. split.
  - intros k Hk. apply obj_get_put_other. congruence.
  - repeat split.
Qed.

Lemma registerComponent_lookup_witness :
  exists w',
    registerComponent (Sample.widget "issue-chart")
      (SharedState_constructor Sample.submissions)
    = (Ok "issue_chart", w') /\
    obj_get "issue_chart" (components (store w'))
    = Some (Sample.widget "issue-chart") /\
    heap w' = heap (SharedState_constructor Sample.submissions) /\
    log w' = [].
Proof.
  destruct (registerComponent_lookup (Sample.widget "issue-chart")
              (SharedState_constructor Sample.submissions))
    as (w' & Hrun & Hget & _ & _ & _ & _ & Hheap & Hlog).
  - vm_compute. discriminate.
  - exists w'. now repeat split.
Defined.



(** ** What the four tests decide *)

Lemma same_value_zero_VStr (x : JsValue) (s : string) :
  same_value_zero x (VStr s) = true <-> x = VStr s.
Proof.
  destruct x; simpl; try (split; [discriminate | intros E; discriminate E]).
  rewrite String.eqb_eq. split; [now intros -> | now intros [= ->]].
Qed.

Lemma includes_VStr (state : list JsValue) (s : string) :
  includes state (VStr s) = true <-> In (VStr s) state.
Proof.
  unfold includes. rewrite existsb_exists. split.
  - intros (x & Hin & Hx). apply same_value_zero_VStr in Hx. now subst.
  - intros Hin. exists (VStr s). split; [exact Hin|].
    now apply same_value_zero_VStr.
Qed.

Section TestFacts.
Context `{DateLibrary}.

(** X5: the test of [IssuesFilter] always returns, and returns [true]
    exactly when one of the issues of the report is, as a string, an
    element of the state. *)
Theorem IssuesFilter_test_iff (state : list JsValue) (r : Report) :
  exists b,
    test {| class_of := IssuesFilter; _state := state |} r = Ok b /\
    (b = true <->
     exists tag, In tag (issues r) /\ In (VStr tag) state).
Proof.
  eexists. split; [reflexivity|]. cbn [_state].
  rewrite existsb_exists. split.
  - intros (tag & Hin & Hinc). exists tag. split; [exact Hin|].
    now apply includes_VStr.
  - intros (tag & Hin & Hst). exists tag. split; [exact Hin|].
    now apply includes_VStr.
Qed.

(** X6: the test of [ParkingDurationFilter] always returns, and
    returns [true] exactly when the duration of the report is, as a
    string, an element of the state. *)
Theorem ParkingDurationFilter_test_iff (state : list JsValue) (r : Report) :
  exists b,
    test {| class_of := ParkingDurationFilter; _state := state |} r = Ok b /\
    (b = true <-> In (VStr (parking_duration r)) state).
Proof.
  eexists. split; [reflexivity|]. cbn [_state]. apply includes_VStr.
Qed.

Lemma dayIndex_values (name : string) (v : JsValue) :
  obj_get name dayIndex = Some v -> exists n, v = VNum n /\ (1 <= n <= 7)%Z.
Proof.
  unfold dayIndex. cbn [obj_get].
  repeat match goal with
         | |- context [if ?b then _ else _] => destruct b
         end;
    intros E; try discriminate E; injection E as <-;
    eexists; (split; [reflexivity | lia]).
Qed.

Lemma dayIndex_of_weekday (x : JsValue) (dt : DateTime) :
  same_value_zero (dayIndex_of x) (weekday dt) = true <->
  exists name n,
    x = VStr name /\ obj_get name dayIndex = Some (VNum n) /\
    DateTime_weekday dt = Some n.
Proof.
  unfold weekday, dayIndex_of. split.
  - destruct x; try (destruct (DateTime_weekday dt); discriminate).
    destruct (obj_get s dayIndex) as [v|] eqn:Ev;
      [|destruct (DateTime_weekday dt); discriminate].
    destruct (dayIndex_values _ _ Ev) as (n & -> & _).
    destruct (DateTime_weekday dt) as [m|]; simpl; [|discriminate].
    intros E. apply Z.eqb_eq in E. subst m. now exists s, n.
  - intros (name & n & -> & Hn & Hw). rewrite Hn, Hw. simpl.
    apply Z.eqb_refl.
Qed.

(** X7: built from a list of names, the test of [WeekDayPeriodFilter]
    always returns, and returns [true] exactly when the weekday of the
    parking time is the index of one of the names, lower-cased, in the
    table of the seven days; other names match nothing, and an invalid
    date is rejected. *)
Theorem WeekDayPeriodFilter_test_iff (names : list string) (ref : nat)
  (r : Report) :
  exists f b,
    new_filter WeekDayPeriodFilter (VArr ref (map VStr names)) = Ok f /\
    test f r = Ok b /\
    (b = true <->
     exists name n,
       In name names /\
       obj_get (toLowerCase name) dayIndex = Some (VNum n) /\
       DateTime_weekday (parseParkingTime (parking_time r)) = Some n) /\
    (DateTime_weekday (parseParkingTime (parking_time r)) = None ->
     b = false).
Proof.
  eexists. eexists. split; [apply new_WeekDayPeriodFilter_names|].
  split; [reflexivity|]. cbn [_state].
  set (dt := parseParkingTime (parking_time r)).
  assert (Hiff : includes (map dayIndex_of
                             (map (fun s => VStr (toLowerCase s)) names))
                          (weekday dt) = true <->
                 exists name n,
                   In name names /\
                   obj_get (toLowerCase name) dayIndex = Some (VNum n) /\
                   DateTime_weekday dt = Some n).
  { unfold includes. rewrite existsb_exists. split.
    - intros (y & Hy & Hsame).
      apply in_map_iff in Hy as (x & <- & Hx).
      apply in_map_iff in Hx as (name & <- & Hname).
      apply dayIndex_of_weekday in Hsame as (name' & n & E & Hn & Hw).
      injection E as <-. now exists name, n.
    - intros (name & n & Hname & Hn & Hw).
      exists (dayIndex_of (VStr (toLowerCase name))). split.
      + apply in_map. now apply (in_map (fun s => VStr (toLowerCase s))).
      + apply dayIndex_of_weekday. now exists (toLowerCase name), n. }
  split; [exact Hiff|].
  intros Hnone.
  destruct (includes _ (weekday dt)); [|reflexivity].
  destruct (proj1 Hiff eq_refl) as (name & n & _ & _ & Hw). congruence.
Qed.

Lemma DateRange_loop_returns (state : list JsValue) (dt : DateTime) :
  Forall (fun i => exists b, Interval_contains i dt = Ok b) state ->
  exists b,
    DateRange_loop state dt = Ok b /\
    (b = true <-> Exists (fun i => Interval_contains i dt = Ok true) state).
Proof.
  induction 1 as [|i state [bi Hi] _ (b & Hb & Hiff)]; simpl.
  - exists false. split; [reflexivity|]. split; [discriminate|].
    intros HE. inversion HE.
  - rewrite Hi. simpl. destruct bi.
    + exists true. split; [reflexivity|]. split; [|reflexivity].
      intros _. now left.
    + exists b. split; [exact Hb|]. rewrite Hiff. split.
      * intros HE. now right.
      * intros HE. inversion HE as [? ? Hhead|]; subst; [congruence | assumption].
Qed.

(** X8: when [contains] returns for every element of the state, the
    test of [DateRangeFilter] returns, and returns [true] exactly when
    one of the intervals contains the parking time. *)
Theorem DateRangeFilter_test_any (state : list JsValue) (r : Report)
  (Hret : Forall (fun i => exists b,
                    Interval_contains i (parseParkingTime (parking_time r))
                    = Ok b) state) :
  exists b,
    test {| class_of := DateRangeFilter; _state := state |} r = Ok b /\
    (b = true <->
     Exists (fun i => Interval_contains i (parseParkingTime (parking_time r))
                      = Ok true) state).
Proof. now apply DateRange_loop_returns. Qed.

(** X9: the search of [DateRangeFilter] stops at the first element
    that does not answer [false]: behind intervals that do not contain
    the parking time, an interval that contains it gives [true] whatever
    follows, an element on which [contains] throws makes the test throw,
    and otherwise the rest of the state decides. *)
Theorem DateRangeFilter_test_first_decisive (pre post : list JsValue)
  (i : JsValue) (r : Report)
  (Hpre : Forall (fun j => Interval_contains j
                             (parseParkingTime (parking_time r))
                           = Ok false) pre) :
  test {| class_of := DateRangeFilter; _state := pre ++ i :: post |} r
  = match Interval_contains i (parseParkingTime (parking_time r)) with
    | Ok true => Ok true
    | Ok false => test {| class_of := DateRangeFilter; _state := post |} r
    | Throw e => Throw e
    end.
Proof.
  unfold test. cbn [class_of _state].
  induction Hpre as [|j pre Hj _ IH]; simpl.
  - now destruct (Interval_contains i _) as [[|]|].
  - rewrite Hj. simpl. exact IH.
Qed.

Lemma includes_perm (s1 s2 : list JsValue) (x : JsValue) :
  Permutation s1 s2 -> includes s1 x = includes s2 x.
Proof.
  unfold includes.
  induction 1 as [| y l l' _ IH | y z l | l l' l'' _ IH1 _ IH2]; simpl.
  - reflexivity.
  - now rewrite IH.
  - now destruct (same_value_zero y x), (same_value_zero z x).
  - now rewrite IH1.
Qed.

(** X10: for the three classes other than [DateRangeFilter] the test
    depends on the state as a collection only: two states with the same
    elements in another order give the same answer on every report. *)
Theorem test_state_order (c : FilterClass) (s1 s2 : list JsValue) (r : Report)
  (Hclass : c <> DateRangeFilter) (Hperm : Permutation s1 s2) :
  test {| class_of := c; _state := s1 |} r
  = test {| class_of := c; _state := s2 |} r.
Proof.
  unfold test. destruct c; cbn [class_of _state]; try contradiction.
  - f_equal. induction (issues r) as [|tag tags IH]; simpl; [reflexivity|].
    now rewrite IH, (includes_perm s1 s2 _ Hperm).
  - f_equal. apply includes_perm. now apply Permutation_map.
  - f_equal. now apply includes_perm.
Qed.
End TestFacts.

Lemma DateRangeFilter_test_any_witness :
  test (H := Sample.dates)
       {| class_of := DateRangeFilter; _state := [Sample.january_first] |}
       Sample.saturday = Ok false.
Proof.
  destruct (DateRangeFilter_test_any (H := Sample.dates)
              [Sample.january_first] Sample.saturday)
    as (b & Hb & Hiff).
  - repeat constructor. eexists. reflexivity.
  - rewrite Hb. destruct b; [|reflexivity].
    exfalso. pose proof (proj1 Hiff eq_refl) as HE.
    inversion HE as [i l Hi | i l Hl]; subst.
    + vm_compute in Hi. discriminate Hi.
    + inversion Hl.
Defined.

Lemma DateRangeFilter_test_first_decisive_witness :
  let year_2024 := VObj 8 [("s", VNum 1704067200); ("e", VNum 1735689600)] in
  test (H := Sample.dates)
       {| class_of := DateRangeFilter;
          _state := [Sample.january_first; year_2024; VNull] |}
       Sample.saturday = Ok true /\
  test (H := Sample.dates)
       {| class_of := DateRangeFilter;
          _state := [Sample.january_first; VNull; year_2024] |}
       Sample.saturday = Throw TypeError.
Proof.
  intros year_2024. split.
  - apply (DateRangeFilter_test_first_decisive (H := Sample.dates)
             [Sample.january_first] [VNull] year_2024 Sample.saturday).
    repeat constructor.
  - apply (DateRangeFilter_test_first_decisive (H := Sample.dates)
             [Sample.january_first] [year_2024] VNull Sample.saturday).
    repeat constructor.
Defined.

Lemma test_state_order_witness :
  test (H := Sample.dates)
       {| class_of := IssuesFilter; _state := [VStr "full"; VStr "damaged"] |}
       Sample.wednesday
  = test (H := Sample.dates)
         {| class_of := IssuesFilter; _state := [VStr "damaged"; VStr "full"] |}
         Sample.wednesday.
Proof.
  apply (test_state_order (H := Sample.dates)).
  - discriminate.
  - apply perm_swap.
Defined.

(** ** Construction of a weekday filter *)






(** ** State comparison, further *)

Lemma deepEquals_VStr (s : string) (y : JsValue) :
  deepEquals (VStr s) y
  = Ok (match y with VStr t => (s =? t)%string | _ => false end).
Proof. now destruct y. Qed.

Lemma stateEquals_loop_strings (names : list string) :
  forall pre suf,
    length names = length suf ->
    exists b,
      stateEquals_loop (length pre) (map VStr names) (pre ++ suf) = Ok b /\
      (b = true <-> suf = map VStr names).
Proof.
  induction names as [|s names IH]; intros pre suf Hlen; simpl.
  - destruct suf; [|discriminate]. exists true. now split.
  - destruct suf as [|y suf]; [discriminate|].
    rewrite nth_middle, deepEquals_VStr. cbn [rbind].
    destruct y as [ | | | | | t | | ];
      try (exists false; split; [reflexivity | split; discriminate]).
    destruct (String.eqb_spec s t) as [->|Hne]; cbn [negb].
    + destruct (IH (pre ++ [VStr t]) suf) as (b & Hb & Hiff);
        [simpl in Hlen; lia|].
      rewrite length_app, Nat.add_1_r, <- app_assoc in Hb. simpl in Hb.
      exists b. split; [exact Hb|]. rewrite Hiff. split.
      * now intros ->.
      * now intros [= ->].
    + exists false. split; [reflexivity|]. split; [discriminate|].
      intros [= E _]. now elim Hne.
Qed.

(** X13: on a state of strings [stateEquals] never throws and decides
    equality of the lists: it returns [true] exactly when the argument
    is an array of the same strings in the same order. *)
Theorem stateEquals_strings (c : FilterClass) (names : list string)
  (otherState : JsValue) :
  exists b,
    stateEquals {| class_of := c; _state := map VStr names |} otherState
    = Ok b /\
    (b = true <-> exists ref, otherState = VArr ref (map VStr names)).
Proof.
  unfold stateEquals. cbn [_state].
  destruct otherState as [ | | | | | | | ref other];
    try (exists false; split; [reflexivity|];
         split; [discriminate | now intros (? & ?)]).
  rewrite length_map.
  destruct (Nat.eqb_spec (length names) (length other)) as [Hl|Hl]; cbn [negb].
  - destruct (stateEquals_loop_strings names [] other Hl) as (b & Hb & Hiff).
    exists b. split; [exact Hb|]. rewrite Hiff. split.
    + intros ->. now exists ref.
    + now intros (ref' & [= _ ->]).
  - exists false. split; [reflexivity|]. split; [discriminate|].
    intros (ref' & [= _ ->]). now rewrite length_map in Hl.
Qed.

Lemma keys_of_throws (x : JsValue) (e : JsError) :
  typeof x = TObject -> keys_of x = Throw e -> e = TypeError /\ x = VNull.
Proof.
  destruct x; simpl; try discriminate.
  intros _ [= <-]. now split.
Qed.

Lemma deepEquals_throws (x y : JsValue) (e : JsError) :
  deepEquals x y = Throw e -> e = TypeError /\ (x = VNull \/ y = VNull).
Proof.
  unfold deepEquals.
  destruct (JsType_eqb_spec (typeof x) (typeof y)) as [Ht|Ht]; simpl;
    [|discriminate].
  destruct (JsType_eqb_spec (typeof x) TObject) as [Ho|Ho]; [|discriminate].
  destruct (keys_of x) as [keys1|e1] eqn:E1; simpl.
  - destruct (keys_of y) as [keys2|e2] eqn:E2; simpl.
    + destruct (negb _); discriminate.
    + intros [= <-]. rewrite Ho in Ht. symmetry in Ht.
      destruct (keys_of_throws y e2 Ht E2) as [-> ->]. split; [reflexivity|].
      now right.
  - intros [= <-]. destruct (keys_of_throws x e1 Ho E1) as [-> ->].
    split; [reflexivity | now left].
Qed.

Lemma stateEquals_loop_throws (rest other : list JsValue) (e : JsError) :
  forall i,
    stateEquals_loop i rest other = Throw e ->
    e = TypeError /\ (In VNull rest \/ In VNull other).
Proof.
  induction rest as [|x rest IH]; intros i; simpl; [discriminate|].
  destruct (deepEquals x (nth i other VUndefined)) as [same|e'] eqn:E; simpl.
  - destruct same; simpl; [|discriminate].
    intros Hrest. destruct (IH _ Hrest) as (He & [Hin|Hin]).
    + split; [exact He|]. left. now right.
    + split; [exact He|]. now right.
  - intros [= <-]. destruct (deepEquals_throws _ _ _ E) as (He & [Hx|Hy]).
    + split; [exact He|]. left. now left.
    + split; [exact He|]. right.
      destruct (nth_in_or_default i other VUndefined) as [Hin|Hd].
      * now rewrite Hy in Hin.
      * rewrite Hy in Hd. discriminate Hd.
Qed.

(** X14: [stateEquals] throws only a [TypeError], and only when
    [null] is an element of the state or of the array it is compared
    with. *)
Theorem stateEquals_throws_only_on_null (f : ReportFilter)
  (otherState : JsValue) (e : JsError)
  (Hthrow : stateEquals f otherState = Throw e) :
  e = TypeError /\
  (In VNull (_state f) \/
   exists ref other, otherState = VArr ref other /\ In VNull other).
Proof.
  revert Hthrow. unfold stateEquals.
  destruct otherState as [ | | | | | | | ref other]; try discriminate.
  destruct (negb _); [discriminate|].
  intros Hloop. destruct (stateEquals_loop_throws _ _ _ _ Hloop) as (He & [Hin|Hin]).
  - split; [exact He | now left].
  - split; [exact He|]. right. now exists ref, other.
Qed.

Lemma stateEquals_throws_only_on_null_witness :
  let f := {| class_of := DateRangeFilter; _state := [VStr "a"; VNull] |} in
  stateEquals f (VArr 0 [VStr "a"; VObj 1 []]) = Throw TypeError /\
  (In VNull (_state f) \/
   exists ref other,
     VArr 0 [VStr "a"; VObj 1 []] = VArr ref other /\ In VNull other).
Proof.
  intros f. split; [reflexivity|].
  apply (stateEquals_throws_only_on_null f (VArr 0 [VStr "a"; VObj 1 []])
           TypeError).
  reflexivity.
Defined.

(** ** The setter, further *)

Lemma refresh_loop_log (cs : list Component) (w : World) :
  exists evs, log (snd (refresh_loop cs w)) = log w ++ evs.
Proof.
  revert w. induction cs as [|c cs IH]; intros w; simpl.
  - exists []. now rewrite app_nil_r.
  - unfold bind. rewrite call_refresh_run.
    destruct (Component_refresh c (_display_data (store w))) as [[]|e]; simpl.
    + destruct (IH {| store := store w; heap := heap w;
                      log := log w ++ [EvRefresh c (_display_data (store w))] |})
        as (evs & Hevs).
      rewrite Hevs. simpl. rewrite <- app_assoc. now eexists.
    + now eexists.
Qed.

Lemma filter_result_throws {A : Type} (p : A -> result bool)
      (before after : list A) (x : A) (e : JsError) :
  Forall (fun y => exists b, p y = Ok b) before ->
  p x = Throw e ->
  filter_result p (before ++ x :: after) = Throw e.
Proof.
  induction 1 as [|y before [b Hy] _ IH]; simpl; intros Hx.
  - now rewrite Hx.
  - now rewrite Hy, IH.
Qed.

Lemma refresh_calls_app (l1 l2 : list Event) :
  refresh_calls (l1 ++ l2) = refresh_calls l1 ++ refresh_calls l2.
Proof.
  induction l1 as [|ev l1 IH]; simpl; [reflexivity|].
  destruct ev; simpl; now rewrite IH.
Qed.

Lemma refresh_calls_map (cs : list Component) (d : Component -> list Report) :
  refresh_calls (map (fun c => EvRefresh c (d c)) cs) = cs.
Proof.
  induction cs as [|c cs IH]; simpl; [reflexivity | now rewrite IH].
Qed.

Section SetterFurther.
Context `{DateLibrary}.


(** X15: whatever the outcome of an assignment to [filters], throwing
    included, the dataset, the registry and the heap are as before and
    the log has only grown, by the assignment first. *)
Theorem filters_setter_keeps_dataset (f : loc) (w : World) :
  let w' := snd (set_filters f w) in
  response_data (store w') = response_data (store w) /\
  components (store w') = components (store w) /\
  heap w' = heap w /\
  exists evs, log w' = log w ++ EvSetFilters f :: evs.
Proof.
  intros w'. unfold w'. rewrite set_filters_run.
  destruct (applyFilters (store w) (cell (heap w) f)) as [d|e].
  - match goal with
    | |- context [refresh_loop ?cs ?w0] =>
        destruct (refresh_loop_frame cs w0) as [Hs Hh];
        destruct (refresh_loop_log cs w0) as (evs & Hlog)
    end.
    rewrite Hs, Hh, Hlog. simpl. repeat split.
    exists (EvSetDisplayData d :: evs). now rewrite <- !app_assoc.
  - simpl. repeat split. now exists [].
Qed.


(** X17: an assignment to [filters] is not undone when a test throws.
    If the test of the first filter of the mapping throws on a report,
    having returned on the reports before it, the setter throws that
    error with the new mapping stored, the former data still displayed
    and no component refreshed. *)
Theorem filters_setter_test_throws (f : loc) (w : World) (k : string)
  (flt : ReportFilter) (others : list (string * ReportFilter))
  (before after : list Report) (r : Report) (e : JsError)
  (Hfirst : Object_entries (cell (heap w) f) = (k, flt) :: others)
  (Hdata : response_data (store w) = before ++ r :: after)
  (Hbefore : Forall (fun r' => exists b, test flt r' = Ok b) before)
  (Hthrow : test flt r = Throw e) :
  set_filters f w =
  (Throw e,
   {| store := with_filters f (store w); heap := heap w;
      log := log w ++ [EvSetFilters f] |}).
Proof.
  rewrite set_filters_run. unfold applyFilters. rewrite Hfirst, Hdata.
  cbn [length Nat.ltb Nat.leb applyFilters_loop].
  now rewrite (filter_result_throws (fun r0 => test flt r0)
                 before after r e Hbefore Hthrow).
Qed.

(** X18: a [refresh] that throws reaches the caller of the setter.
    The components enumerated before the failing one have been
    refreshed, those after it are not, and the store already holds the
    new mapping and the recomputed data. *)
Theorem filters_setter_refresh_throws (f : loc) (w : World)
  (pre post : list Component) (c : Component) (e : JsError)
  (Hret : tests_return (cell (heap w) f) (response_data (store w)))
  (Hsplit : Object_values (components (store w)) = pre ++ c :: post)
  (Hpre : Forall (fun c' => Component_refresh c' (recomputed w f) = Ok tt) pre)
  (Hthrow : Component_refresh c (recomputed w f) = Throw e) :
  set_filters f w =
  (Throw e,
   {| store := with_display_data (recomputed w f) (with_filters f (store w));
      heap := heap w;
      log := log w ++ EvSetFilters f :: EvSetDisplayData (recomputed w f) ::
               map (fun c' => EvRefresh c' (recomputed w f)) (pre ++ [c]) |}).
Proof.
  rewrite set_filters_run.
  rewrite (applyFilters_returns (store w) _ Hret). fold (recomputed w f).
  rewrite Hsplit.
  rewrite (refresh_loop_throws pre post c e) by assumption.
  simpl. now rewrite <- !app_assoc.
Qed.

(** X19: assigning the same mapping a second time recomputes the same
    data: the store and the heap are as after the first assignment, and
    the components are refreshed once more. *)
Theorem filters_setter_idempotent (f : loc) (w : World)
  (Hret : tests_return (cell (heap w) f) (response_data (store w)))
  (Hrefresh : Forall (fun c => Component_refresh c (recomputed w f) = Ok tt)
                     (Object_values (components (store w)))) :
  let w1 := snd (set_filters f w) in
  let w2 := snd (set_filters f w1) in
  fst (set_filters f w1) = Ok tt /\
  store w2 = store w1 /\ heap w2 = heap w1 /\
  refresh_calls (log w2)
  = refresh_calls (log w1) ++ Object_values (components (store w)).
Proof.
  intros w1 w2. unfold w2, w1.
  rewrite (set_filters_returns f w Hret Hrefresh). cbn [snd].
  match goal with
  | |- context [set_filters f ?w0] =>
      rewrite (set_filters_returns f w0 Hret Hrefresh)
  end.
  cbn [fst snd store heap log components with_display_data with_filters].
  repeat split.
  rewrite refresh_calls_app. f_equal. cbn [refresh_calls].
  apply refresh_calls_map.
Qed.

(** X20: a filter added to a mapping under a key it does not hold
    can only take reports away: the new result is the former one
    filtered by the added test. *)
Theorem applyFilters_additional_filter (st : SharedState)
  (F : JsObject ReportFilter) (k : string) (flt : ReportFilter)
  (Hfresh : obj_get k F = None) (Hproto : k <> "__proto__")
  (Hret : tests_return (obj_set k flt F) (response_data st)) :
  exists l,
    applyFilters st F = Ok l /\
    applyFilters st (obj_set k flt F) = Ok (filter (accepts flt) l) /\
    Subseq (filter (accepts flt) l) l.
Proof.
  rewrite obj_set_named in * by exact Hproto.
  rewrite obj_put_fresh in * by now apply obj_get_None_fresh.
  assert (HretF : tests_return F (response_data st)).
  { intros k' f' r Hin Hr. apply (Hret k' f' r); [|exact Hr].
    apply in_or_app. now left. }
  exists (filter (accepts_all F) (response_data st)). split; [|split].
  - now apply applyFilters_returns.
  - rewrite (applyFilters_returns st _ Hret). f_equal.
    rewrite filter_filter. apply filter_ext. intros r.
    unfold accepts_all. rewrite forallb_app. simpl.
    now rewrite andb_true_r.
  - apply filter_Subseq.
Qed.
End SetterFurther.


Lemma filters_setter_test_throws_witness :
  let w0 := snd (construct_all [Sample.widget "map"]
                   (SharedState_constructor Sample.submissions)) in
  let w := snd (new_object [("date_range", Sample.date_null)] w0) in
  set_filters (H := Sample.dates) 1 w =
  (Throw TypeError,
   {| store := with_filters 1 (store w); heap := heap w;
      log := [EvSetFilters 1] |}).
Proof.
  intros w0 w.
  apply (filters_setter_test_throws (H := Sample.dates) 1 w "date_range"
           Sample.date_null [] [] [Sample.wednesday; Sample.thursday]
           Sample.saturday TypeError).
  - reflexivity.
  - reflexivity.
  - constructor.
  - reflexivity.
Defined.

Lemma filters_setter_refresh_throws_witness :
  let cs := [Sample.widget "map"; Sample.broken_widget "chart";
             Sample.widget "sidebar"] in
  let w := snd (construct_all cs (SharedState_constructor Sample.submissions)) in
  set_filters (H := Sample.dates) 0 w =
  (Throw (OtherError "cannot draw"),
   {| store := with_display_data Sample.submissions (with_filters 0 (store w));
      heap := heap w;
      log := [EvSetFilters 0; EvSetDisplayData Sample.submissions;
              EvRefresh (Sample.widget "map") Sample.submissions;
              EvRefresh (Sample.broken_widget "chart") Sample.submissions] |}).
Proof.
  intros cs w.
  apply (filters_setter_refresh_throws (H := Sample.dates) 0 w
           [Sample.widget "map"] [Sample.widget "sidebar"]
           (Sample.broken_widget "chart") (OtherError "cannot draw")).
  - intros k f r [].
  - reflexivity.
  - repeat constructor.
  - reflexivity.
Defined.

Lemma filters_setter_idempotent_witness :
  let cs := [Sample.widget "map"; Sample.widget "chart"] in
  let w0 := snd (construct_all cs (SharedState_constructor Sample.submissions)) in
  let w := snd (new_object [("parking_duration", Sample.duration_hours)] w0) in
  let w1 := snd (set_filters (H := Sample.dates) 1 w) in
  let w2 := snd (set_filters (H := Sample.dates) 1 w1) in
  fst (set_filters (H := Sample.dates) 1 w1) = Ok tt /\
  store w2 = store w1 /\ heap w2 = heap w1 /\
  refresh_calls (log w2) = refresh_calls (log w1) ++ cs.
Proof.
  intros cs w0 w.
  apply (filters_setter_idempotent (H := Sample.dates) 1 w).
  - apply tests_return_no_date_range. repeat constructor; discriminate.
  - repeat constructor.
Defined.

Lemma applyFilters_additional_filter_witness :
  let st := store (SharedState_constructor Sample.submissions) in
  let F := [("issues", Sample.issues_full)] in
  exists l,
    applyFilters (H := Sample.dates) st F = Ok l /\
    applyFilters (H := Sample.dates) st
      (obj_set "parking_duration" Sample.duration_hours F)
    = Ok (filter (accepts (H := Sample.dates) Sample.duration_hours) l) /\
    Subseq (filter (accepts (H := Sample.dates) Sample.duration_hours) l) l.
Proof.
  intros st F.
  apply (applyFilters_additional_filter (H := Sample.dates) st F
           "parking_duration" Sample.duration_hours).
  - reflexivity.
  - discriminate.
  - apply tests_return_no_date_range. repeat constructor; discriminate.
Defined.

(** ** Analytics *)

(** X21: [analytics_event] never throws.  It calls [track] once, with
    the data unless it is [undefined]; when [track] returns nothing is
    printed, and when it throws one line is printed, with [null] in
    place of data that is [undefined] or [null]. *)
Theorem analytics_event_never_throws {T : Type}
  (track : string -> option JsValue -> T -> result unit * T)
  (event_name : string) (data : JsValue) (umami : T) (console : Console) :
  let argument := match data with VUndefined => None | _ => Some data end in
  let outcome := track event_name argument umami in
  exists console',
    analytics_event track event_name data (umami, console)
    = (Ok tt, (snd outcome, console')) /\
    (forall u, fst outcome = Ok u -> console' = console) /\
    (forall e, fst outcome = Throw e ->
       console'
       = console ++
           [(("Analytics not active to track " ++ quote_mark ++ event_name
                ++ quote_mark)%string,
             match data with VUndefined | VNull => VNull | _ => data end)]).
Proof.
  intros argument outcome. unfold analytics_event.
  assert (Harg : (if negb (strict_eq data VUndefined)
                  then track event_name (Some data) umami
                  else track event_name None umami) = outcome)
    by (unfold outcome, argument; now destruct data).
  rewrite Harg. destruct outcome as [[u|e] umami']; cbn [fst snd].
  - exists console. split; [reflexivity|]. split; [reflexivity|].
    discriminate.
  - eexists. split; [reflexivity|]. split; [discriminate|].
    intros e' _. reflexivity.
Qed.

(** ** Symmetry of the comparison *)

Lemma strict_eq_sym (x y : JsValue) : strict_eq x y = strict_eq y x.
Proof.
  destruct x, y; simpl; try reflexivity.
  - now destruct b, b0.
  - apply Z.eqb_sym.
  - apply String.eqb_sym.
  - apply Nat.eqb_sym.
  - apply Nat.eqb_sym.
Qed.

Lemma Object_keys_In {V : Type} (o : JsObject V) (k : string) :
  In k (Object_keys o) <-> In k (map fst o).
Proof.
  unfold Object_keys.
  pose proof (Permutation_map fst (Object_entries_perm o)) as HP.
  split; intros Hin.
  - now apply (Permutation_in _ HP).
  - now apply (Permutation_in _ (Permutation_sym HP)).
Qed.

Lemma obj_get_In {V : Type} (o : JsObject V) (k : string) :
  In k (map fst o) -> exists v, obj_get k o = Some v.
Proof.
  induction o as [|[k' v'] o IH]; simpl; [now intros []|].
  destruct (String.eqb_spec k' k) as [->|Hne].
  - intros _. now exists v'.
  - intros [Heq|Hin]; [contradiction | now apply IH].
Qed.

Lemma has_property_VObj (ref : nat) (props : list (string * JsValue))
      (k : string) :
  has_property k (VObj ref props) = true <-> In k (map fst props).
Proof.
  simpl. split.
  - destruct (obj_get k props) eqn:E; [|discriminate]. intros _.
    destruct (in_dec string_dec k (map fst props)) as [Hin|Hnin];
      [exact Hin|].
    exfalso. revert E Hnin. clear.
    induction props as [|[k' v'] props IH]; simpl; [discriminate|].
    destruct (String.eqb_spec k' k) as [->|Hne].
    + intros _ Hnin. apply Hnin. now left.
    + intros E Hnin. apply IH; [exact E|]. intros Hin. apply Hnin. now right.
  - intros Hin. now destruct (obj_get_In props k Hin) as (v & ->).
Qed.

Lemma deepEquals_loop_objects (r1 r2 : nat) (p q : list (string * JsValue)) :
  NoDup (map fst p) ->
  length p = length q ->
  deepEquals_loop (VObj r1 p) (VObj r2 q) (Object_keys p) = true ->
  deepEquals_loop (VObj r2 q) (VObj r1 p) (Object_keys q) = true.
Proof.
  intros Hnd Hlen Hloop.
  pose proof (proj1 (deepEquals_loop_true _ _ _) Hloop) as Hall.
  assert (Hincl : incl (Object_keys q) (Object_keys p)).
  { apply NoDup_length_incl.
    - unfold Object_keys.
      apply (Permutation_NoDup
               (Permutation_sym (Permutation_map fst (Object_entries_perm p)))).
      exact Hnd.
    - unfold Object_keys. rewrite !length_map.
      rewrite (Permutation_length (Object_entries_perm p)).
      rewrite (Permutation_length (Object_entries_perm q)). lia.
    - intros k Hk. destruct (Hall k Hk) as [Hhas _].
      apply Object_keys_In. now apply has_property_VObj in Hhas. }
  apply deepEquals_loop_true. intros k Hk.
  destruct (Hall k (Hincl k Hk)) as [_ Heq]. split.
  - apply has_property_VObj. apply Object_keys_In. now apply Hincl.
  - now rewrite strict_eq_sym.
Qed.

Lemma deepEquals_symmetric (x y : JsValue) :
  plain_value x -> plain_value y -> deepEquals x y = deepEquals y x.
Proof.
  destruct x as [ | | b | n | | s | r1 p | r1 l];
    destruct y as [ | | b' | n' | | s' | r2 q | r2 l'];
    simpl; intros Hx Hy; try reflexivity; try contradiction;
    try (unfold deepEquals; simpl; f_equal;
         first [ now destruct b, b' | apply Z.eqb_sym | apply String.eqb_sym ]).
  unfold deepEquals. cbn [typeof JsType_eqb negb keys_of rbind].
  unfold Object_keys. rewrite !length_map.
  rewrite (Permutation_length (Object_entries_perm p)).
  rewrite (Permutation_length (Object_entries_perm q)).
  rewrite (Nat.eqb_sym (length q) (length p)).
  destruct (Nat.eqb_spec (length p) (length q)) as [Hlen|Hlen]; cbn [negb];
    [|reflexivity].
  f_equal. fold (Object_keys p) (Object_keys q).
  destruct (deepEquals_loop (VObj r1 p) (VObj r2 q) (Object_keys p)) eqn:E1;
    destruct (deepEquals_loop (VObj r2 q) (VObj r1 p) (Object_keys q)) eqn:E2;
    try reflexivity.
  - rewrite (deepEquals_loop_objects r1 r2 p q Hx Hlen E1) in E2. discriminate.
  - rewrite (deepEquals_loop_objects r2 r1 q p Hy (eq_sym Hlen) E2) in E1.
    discriminate.
Qed.

Lemma stateEquals_loop_symmetric (rest : list JsValue) :
  forall suf pre pre',
    length rest = length suf ->
    Forall plain_value rest -> Forall plain_value suf ->
    stateEquals_loop (length pre) rest (pre ++ suf)
    = stateEquals_loop (length pre') suf (pre' ++ rest).
Proof.
  induction rest as [|x rest IH]; intros suf pre pre' Hlen Hrest Hsuf.
  - destruct suf; [reflexivity | discriminate].
  - destruct suf as [|y suf]; [discriminate|].
    inversion Hrest as [|? ? Hx Hrest']; subst.
    inversion Hsuf as [|? ? Hy Hsuf']; subst.
    cbn [stateEquals_loop]. rewrite !nth_middle.
    rewrite (deepEquals_symmetric x y Hx Hy).
    destruct (deepEquals y x) as [[|]|e]; cbn [rbind negb]; try reflexivity.
    specialize (IH suf (pre ++ [y]) (pre' ++ [x])).
    rewrite !length_app, !Nat.add_1_r, <- !app_assoc in IH.
    apply IH; [simpl in Hlen; lia | assumption | assumption].
Qed.

(** X22: on states of primitive values and of objects (no array among
    the elements) the comparison is symmetric: comparing the state of
    one filter with the state of another gives the same answer, or the
    same exception, as the comparison the other way round. *)
Theorem stateEquals_symmetric (c1 c2 : FilterClass) (s1 s2 : list JsValue)
  (r1 r2 : nat)
  (H1 : Forall plain_value s1) (H2 : Forall plain_value s2) :
  stateEquals {| class_of := c1; _state := s1 |} (VArr r2 s2)
  = stateEquals {| class_of := c2; _state := s2 |} (VArr r1 s1).
Proof.
  unfold stateEquals. cbn [_state].
  rewrite (Nat.eqb_sym (length s2) (length s1)).
  destruct (Nat.eqb_spec (length s1) (length s2)) as [Hlen|Hlen]; cbn [negb];
    [|reflexivity].
  now apply (stateEquals_loop_symmetric s1 s2 [] []).
Qed.

Lemma stateEquals_symmetric_witness :
  let s1 := [VStr "a"; VObj 1 [("x", VNum 1); ("y", VNull)]] in
  let s2 := [VStr "a"; VObj 2 [("y", VNull); ("x", VNum 1)]] in
  stateEquals {| class_of := IssuesFilter; _state := s1 |} (VArr 3 s2) = Ok true /\
  stateEquals {| class_of := DateRangeFilter; _state := s2 |} (VArr 4 s1) = Ok true.
Proof.
  intros s1 s2. split; [reflexivity|].
  rewrite <- (stateEquals_symmetric IssuesFilter DateRangeFilter s1 s2 4 3).
  - reflexivity.
  - repeat constructor; simpl; intuition discriminate.
  - repeat constructor; simpl; intuition discriminate.
Defined.

(** With an array among the elements the comparison is not symmetric:
    an object with a [length] equals an array, not the array it. *)
Lemma deepEquals_array_asymmetric :
  deepEquals (VObj 1 [("length", VNum 1)]) (VArr 2 [VNum 5]) = Ok true /\
  deepEquals (VArr 2 [VNum 5]) (VObj 1 [("length", VNum 1)]) = Ok false.
Proof. split; reflexivity. Qed.
